(** * Memory Mesh Python SDK: [memory_mesh/__init__.py]

    A shallow embedding of [MemoryMeshClient] and of the parts of the
    Python runtime it calls: truthiness, [dict], the [json] module and
    the [requests] calls [post], [get], [raise_for_status] and
    [Response.json].

    Scope of the value model.  The values a caller passes ([pyval])
    are the JSON-native ones without floats: [None], [bool], [int],
    [str], [list] and [dict] with [str] keys, a [str] being a Rocq
    [string] whose characters stand for the code points U+0000 to
    U+00FF; the text of a response body is such a [str] too.  The
    objects [json.loads] builds ([pyobj]) are all of JSON: a [str] is
    the list of its code points, whatever they are, and a [float] is
    carried as the JSON literal that denotes it, its binary value not
    being computed.  Parameters have the types of their annotations.
    The limits of the interpreter (recursion depth, the digit limit of
    [int] to [str] conversion, memory) are not modelled. *)

From Stdlib Require Import ZArith String Ascii List Bool Lia.
From Stdlib Require Import Decimal DecimalString.
From Stdlib Require DecimalZ DecimalPos DecimalFacts.
Import ListNotations.

Local Open Scope string_scope.
Local Open Scope Z_scope.

(** ** Python values *)

Module Py.

#[local] Unset Elimination Schemes.

Inductive pyval : Type :=
| PNone
| PBool (b : bool)
| PInt (z : Z)
| PStr (s : string)
| PList (items : list pyval)
| PDict (entries : list (string * pyval)).

#[local] Set Elimination Schemes.

(** A [dict] with [str] keys, in insertion order. *)
Definition pydict : Type := list (string * pyval).

(** The [__bool__] / [__len__] protocol behind [if x:] and [x or y]. *)
Class Truthy (A : Type) : Type := truthy : A -> bool.

#[export] Instance truthy_str : Truthy string :=
  fun s => match s with EmptyString => false | String _ _ => true end.

#[export] Instance truthy_list {A : Type} : Truthy (list A) :=
  fun l => match l with [] => false | _ :: _ => true end.

(** [Optional[T]]: [None] is falsy, any other value answers for itself. *)
#[export] Instance truthy_optional {A : Type} `{Truthy A} : Truthy (option A) :=
  fun o => match o with None => false | Some a => truthy a end.

(** [x or default] for [x : Optional[T]] and [default : T]. *)
Definition or_ {A : Type} `{Truthy A} (x : option A) (default : A) : A :=
  match x with
  | Some a => if truthy a then a else default
  | None => default
  end.

(** [d.get(key)]: the value stored under [key], if any. *)
Fixpoint dict_lookup {V : Type} (d : list (string * V)) (key : string) : option V :=
  match d with
  | [] => None
  | (k, v) :: rest => if String.eqb k key then Some v else dict_lookup rest key
  end.

(** [d[key] = value]: overwrite in place, or append a new entry. *)
Fixpoint dict_set {V : Type} (d : list (string * V)) (key : string) (value : V)
  : list (string * V) :=
  match d with
  | [] => [(key, value)]
  | (k, v) :: rest =>
      if String.eqb k key then (k, value) :: rest
      else (k, v) :: dict_set rest key value
  end.

(** No key occurs twice: the representation invariant of a [dict]. *)
Fixpoint unique_keys (ks : list string) : bool :=
  match ks with
  | [] => true
  | k :: rest => negb (existsb (String.eqb k) rest) && unique_keys rest
  end.

(** Every [dict] inside the value has pairwise distinct keys. *)
Fixpoint well_formed (v : pyval) : bool :=
  match v with
  | PList items => forallb well_formed items
  | PDict entries =>
      unique_keys (map fst entries)
      && forallb (fun kv => well_formed (snd kv)) entries
  | _ => true
  end.

(** Induction on values, through lists and dictionaries. *)
Section PyvalInduction.
Variable P : pyval -> Prop.
Hypothesis HNone : P PNone.
Hypothesis HBool : forall b, P (PBool b).
Hypothesis HInt : forall z, P (PInt z).
Hypothesis HStr : forall s, P (PStr s).
Hypothesis HList : forall items, Forall P items -> P (PList items).
Hypothesis HDict :
  forall entries, Forall (fun kv => P (snd kv)) entries -> P (PDict entries).

Fixpoint pyval_ind (v : pyval) : P v :=
  match v with
  | PNone => HNone
  | PBool b => HBool b
  | PInt z => HInt z
  | PStr s => HStr s
  | PList items =>
      HList items
        ((fix all (l : list pyval) : Forall P l :=
            match l with
            | [] => Forall_nil P
            | x :: l' => Forall_cons x (pyval_ind x) (all l')
            end) items)
  | PDict entries =>
      HDict entries
        ((fix all (l : list (string * pyval)) : Forall (fun kv => P (snd kv)) l :=
            match l with
            | [] => Forall_nil _
            | kv :: l' => Forall_cons kv (pyval_ind (snd kv)) (all l')
            end) entries)
  end.
End PyvalInduction.

(** *** The objects [json.loads] builds *)

#[local] Unset Elimination Schemes.

(** [OStr] holds the code points of a [str]; [OFloat] holds the JSON
    literal whose value the [float] is. *)
Inductive pyobj : Type :=
| ONone
| OBool (b : bool)
| OInt (z : Z)
| OFloat (literal : string)
| OStr (points : list N)
| OList (items : list pyobj)
| ODict (entries : list (list N * pyobj)).

#[local] Set Elimination Schemes.

(** The code points of a [str] of the caller. *)
Fixpoint codes (s : string) : list N :=
  match s with
  | EmptyString => []
  | String c rest => N_of_ascii c :: codes rest
  end.

(** [==] on [str], code point by code point. *)
Fixpoint codes_eqb (a b : list N) : bool :=
  match a, b with
  | [], [] => true
  | x :: a', y :: b' => N.eqb x y && codes_eqb a' b'
  | _, _ => false
  end.

(** [d.get(key)] on a [dict] of [json.loads]. *)
Fixpoint obj_lookup {V : Type} (d : list (list N * V)) (key : list N) : option V :=
  match d with
  | [] => None
  | (k, v) :: rest => if codes_eqb k key then Some v else obj_lookup rest key
  end.

(** [d.get(key, default)]. *)
Definition obj_get {V : Type} (d : list (list N * V)) (key : list N) (default : V) : V :=
  match obj_lookup d key with
  | Some v => v
  | None => default
  end.

(** [d[key] = value]. *)
Fixpoint obj_set {V : Type} (d : list (list N * V)) (key : list N) (value : V)
  : list (list N * V) :=
  match d with
  | [] => [(key, value)]
  | (k, v) :: rest =>
      if codes_eqb k key then (k, value) :: rest
      else (k, v) :: obj_set rest key value
  end.

(** [dict(pairs)]: later pairs overwrite earlier ones. *)
Definition obj_of_pairs {V : Type} (pairs : list (list N * V)) : list (list N * V) :=
  fold_left (fun d kv => obj_set d (fst kv) (snd kv)) pairs [].

(** A value of the caller, as the object it is. *)
Fixpoint obj_of (v : pyval) : pyobj :=
  match v with
  | PNone => ONone
  | PBool b => OBool b
  | PInt z => OInt z
  | PStr s => OStr (codes s)
  | PList items => OList (map obj_of items)
  | PDict entries => ODict (map (fun kv => (codes (fst kv), obj_of (snd kv))) entries)
  end.

End Py.
Import Py.

(** ** The [json] module of the standard library *)

Module Json.

Definition quote : ascii := "034"%char.
Definition backslash : ascii := "\"%char.

(** *** [json.encoder] *)

(** One lower-case hexadecimal digit. *)
Definition hex_digit (n : N) : ascii :=
  match n with
  | 0 => "0" | 1 => "1" | 2 => "2" | 3 => "3" | 4 => "4" | 5 => "5"
  | 6 => "6" | 7 => "7" | 8 => "8" | 9 => "9" | 10 => "a" | 11 => "b"
  | 12 => "c" | 13 => "d" | 14 => "e" | _ => "f"
  end%N%char.

(** ['\\u{0:04x}'.format(n)] for a code point below 256. *)
Definition u_escape (c : ascii) : string :=
  let n := N_of_ascii c in
  String backslash
    (String "u" (String "0" (String "0"
      (String (hex_digit (n / 16)) (String (hex_digit (n mod 16)) EmptyString))))).

(** [ESCAPE_ASCII] with [ESCAPE_DCT]: a quote, a backslash and every
    character outside [' '..'~'] is replaced by its escape. *)
Definition escape_char (c : ascii) : string :=
  if Ascii.eqb c quote then String backslash (String quote EmptyString)
  else if Ascii.eqb c backslash then String backslash (String backslash EmptyString)
  else if Ascii.eqb c "010" then String backslash (String "n" EmptyString)
  else if Ascii.eqb c "013" then String backslash (String "r" EmptyString)
  else if Ascii.eqb c "009" then String backslash (String "t" EmptyString)
  else if Ascii.eqb c "008" then String backslash (String "b" EmptyString)
  else if Ascii.eqb c "012" then String backslash (String "f" EmptyString)
  else if ((32 <=? N_of_ascii c) && (N_of_ascii c <=? 126))%N
       then String c EmptyString
  else u_escape c.

Fixpoint escape (s : string) : string :=
  match s with
  | EmptyString => EmptyString
  | String c rest => escape_char c ++ escape rest
  end.

(** [py_encode_basestring_ascii]. *)
Definition encode_basestring_ascii (s : string) : string :=
  String quote (escape s ++ String quote EmptyString).

(** [int.__repr__]. *)
Definition int_repr (z : Z) : string := NilZero.string_of_int (Z.to_int z).

(** [JSONEncoder.encode] with the default separators [', '] and [': ']. *)
Fixpoint encode (v : pyval) : string :=
  match v with
  | PNone => "null"
  | PBool true => "true"
  | PBool false => "false"
  | PInt z => int_repr z
  | PStr s => encode_basestring_ascii s
  | PList items => "[" ++ String.concat ", " (map encode items) ++ "]"
  | PDict entries =>
      "{" ++ String.concat ", "
               (map (fun kv => encode_basestring_ascii (fst kv) ++ ": " ++ encode (snd kv))
                    entries)
          ++ "}"
  end.

(** [json.dumps(obj)]. *)
Definition dumps (obj : pyval) : string := encode obj.

(** *** [json.decoder] and [json.scanner] *)

(** [WHITESPACE_STR = ' \t\n\r']. *)
Definition is_whitespace (c : ascii) : bool :=
  Ascii.eqb c " " || Ascii.eqb c "009" || Ascii.eqb c "010" || Ascii.eqb c "013".

(** [WHITESPACE.match(s, end).end()]. *)
Fixpoint skip_whitespace (s : string) : string :=
  match s with
  | String c rest => if is_whitespace c then skip_whitespace rest else s
  | EmptyString => s
  end.

(** The value of a hexadecimal digit, of either case. *)
Definition hex_value (c : ascii) : option N :=
  let n := N_of_ascii c in
  (if (48 <=? n) && (n <=? 57) then Some (n - 48)
   else if (97 <=? n) && (n <=? 102) then Some (n - 87)
   else if (65 <=? n) && (n <=? 70) then Some (n - 55)
   else None)%N.

(** The four hexadecimal digits of [\uXXXX] as a number; [None] when a
    digit is not hexadecimal. *)
Definition decode_uXXXX (a b c d : ascii) : option N :=
  match hex_value a, hex_value b, hex_value c, hex_value d with
  | Some x3, Some x2, Some x1, Some x0 =>
      Some (((x3 * 16 + x2) * 16 + x1) * 16 + x0)%N
  | _, _, _, _ => None
  end.

(** [0xd800 <= uni <= 0xdbff]. *)
Definition is_high_surrogate (uni : N) : bool := ((55296 <=? uni) && (uni <=? 56319))%N.

(** [0xdc00 <= uni2 <= 0xdfff]. *)
Definition is_low_surrogate (uni2 : N) : bool := ((56320 <=? uni2) && (uni2 <=? 57343))%N.

(** [0x10000 + (((uni - 0xd800) << 10) | (uni2 - 0xdc00))]. *)
Definition join_surrogates (uni uni2 : N) : N :=
  (65536 + N.lor (N.shiftl (uni - 55296) 10) (uni2 - 56320))%N.

(** [BACKSLASH]: the one-character escapes. *)
Definition unescape (c : ascii) : option ascii :=
  if Ascii.eqb c quote then Some quote
  else if Ascii.eqb c backslash then Some backslash
  else match c with
       | "/" => Some "/"
       | "b" => Some "008"
       | "f" => Some "012"
       | "n" => Some "010"
       | "r" => Some "013"
       | "t" => Some "009"
       | _ => None
       end%char.

Definition prepend (point : N) (r : option (list N * string)) : option (list N * string) :=
  match r with
  | Some (points, rest) => Some (point :: points, rest)
  | None => None
  end.

(** [scanstring(s, end, strict=True)], called just after the opening
    quote: the code points of the string and the text after the closing
    quote.  A [\uXXXX] escape of a high surrogate that is followed by
    the escape of a low surrogate gives one code point. *)
Fixpoint scanstring (s : string) : option (list N * string) :=
  match s with
  | EmptyString => None
  | String c rest =>
      if Ascii.eqb c quote then Some ([], rest)
      else if Ascii.eqb c backslash then
        match rest with
        | EmptyString => None
        | String esc rest' =>
            if Ascii.eqb esc "u" then
              match rest' with
              | String h3 (String h2 (String h1 (String h0 after))) =>
                  match decode_uXXXX h3 h2 h1 h0 with
                  | None => None
                  | Some uni =>
                      if is_high_surrogate uni then
                        match after with
                        | String b (String u after') =>
                            if Ascii.eqb b backslash && Ascii.eqb u "u" then
                              match after' with
                              | String l3 (String l2 (String l1 (String l0 after''))) =>
                                  match decode_uXXXX l3 l2 l1 l0 with
                                  | None => None
                                  | Some uni2 =>
                                      if is_low_surrogate uni2
                                      then prepend (join_surrogates uni uni2)
                                                   (scanstring after'')
                                      else prepend uni (scanstring after)
                                  end
                              | _ => None
                              end
                            else prepend uni (scanstring after)
                        | _ => prepend uni (scanstring after)
                        end
                      else prepend uni (scanstring after)
                  end
              | _ => None
              end
            else
              match unescape esc with
              | Some ch => prepend (N_of_ascii ch) (scanstring rest')
              | None => None
              end
        end
      else if (N_of_ascii c <? 32)%N then None
      else prepend (N_of_ascii c) (scanstring rest)
  end.

Definition digit_of (c : ascii) : option (uint -> uint) :=
  match c with
  | "0" => Some D0 | "1" => Some D1 | "2" => Some D2 | "3" => Some D3
  | "4" => Some D4 | "5" => Some D5 | "6" => Some D6 | "7" => Some D7
  | "8" => Some D8 | "9" => Some D9
  | _ => None
  end%char.

Definition is_digit (c : ascii) : bool :=
  match digit_of c with Some _ => true | None => false end.

(** The longest run of digits and the text after it. *)
Fixpoint scan_digits (s : string) : uint * string :=
  match s with
  | EmptyString => (Nil, s)
  | String c rest =>
      match digit_of c with
      | Some d => let (ds, rest') := scan_digits rest in (d ds, rest')
      | None => (Nil, s)
      end
  end.

(** The integer part of [NUMBER_RE] without its sign: a lone [0], or
    a digit from 1 to 9 followed by any digits. *)
Definition scan_natural (s : string) : option (Z * string) :=
  match s with
  | EmptyString => None
  | String c rest =>
      if Ascii.eqb c "0" then Some (0, rest)
      else if is_digit c then
        let (ds, rest') := scan_digits s in Some (Z.of_uint ds, rest')
      else None
  end.

(** Whether the fraction or the exponent group of [NUMBER_RE] matches
    at the start of [s], which makes the number a float. *)
Definition float_part_follows (s : string) : bool :=
  match s with
  | String c (String d rest) =>
      if Ascii.eqb c "." then is_digit d
      else if Ascii.eqb c "e" || Ascii.eqb c "E" then
        if Ascii.eqb d "+" || Ascii.eqb d "-" then
          match rest with
          | String d' _ => is_digit d'
          | EmptyString => false
          end
        else is_digit d
      else false
  | _ => false
  end.

(** The text after the fraction group of [NUMBER_RE], a dot and one
    digit or more, when it matches at the start of [s]; [s] itself
    otherwise. *)
Definition skip_fraction (s : string) : string :=
  match s with
  | String c (String d rest) =>
      if Ascii.eqb c "." && is_digit d then snd (scan_digits rest) else s
  | _ => s
  end.

(** The text after the exponent group of [NUMBER_RE], an [e] or [E],
    an optional sign and one digit or more, when it matches at the start
    of [s]; [s] itself otherwise. *)
Definition skip_exponent (s : string) : string :=
  match s with
  | String c (String d rest) =>
      if Ascii.eqb c "e" || Ascii.eqb c "E" then
        if Ascii.eqb d "+" || Ascii.eqb d "-" then
          match rest with
          | String d' rest' => if is_digit d' then snd (scan_digits rest') else s
          | EmptyString => s
          end
        else if is_digit d then snd (scan_digits rest) else s
      else s
  | _ => s
  end.

(** The part of [s] that lies before its suffix [rest]. *)
Definition consumed (s rest : string) : string :=
  substring 0 (String.length s - String.length rest) s.

(** [NUMBER_RE] applied at [s]: [int(integer)] when neither fraction nor
    exponent matches, and otherwise the float of the whole match. *)
Definition scan_number (s : string) : option (pyobj * string) :=
  let signed :=
    match s with
    | String c rest =>
        if Ascii.eqb c "-" then
          match scan_natural rest with
          | Some (n, rest') => Some (- n, rest')
          | None => None
          end
        else scan_natural s
    | EmptyString => None
    end in
  match signed with
  | Some (z, rest) =>
      if float_part_follows rest then
        let rest' := skip_exponent (skip_fraction rest) in
        Some (OFloat (consumed s rest'), rest')
      else Some (OInt z, rest)
  | None => None
  end.

(** [s[end:end+n] == word]: the text after [word], if [s] starts with it. *)
Fixpoint strip_prefix (word s : string) : option string :=
  match word, s with
  | EmptyString, _ => Some s
  | String w word', String c rest =>
      if Ascii.eqb w c then strip_prefix word' rest else None
  | String _ _, EmptyString => None
  end.

(** [NaN], [Infinity] and [-Infinity], which [parse_constant] turns
    into floats. *)
Definition scan_constant (s : string) : option (pyobj * string) :=
  match s with
  | EmptyString => None
  | String c rest =>
      if Ascii.eqb c "N" then
        match strip_prefix "aN" rest with
        | Some rest' => Some (OFloat "NaN", rest')
        | None => None
        end
      else if Ascii.eqb c "I" then
        match strip_prefix "nfinity" rest with
        | Some rest' => Some (OFloat "Infinity", rest')
        | None => None
        end
      else if Ascii.eqb c "-" then
        match strip_prefix "Infinity" rest with
        | Some rest' => Some (OFloat "-Infinity", rest')
        | None => None
        end
      else None
  end.

(** The [while True] loop of [JSONArray], entered at the first element.
    [n] bounds the iterations; each one consumes at least a character. *)
Fixpoint array_loop (scan : string -> option (pyobj * string))
         (n : nat) (values : list pyobj) (s : string) : option (pyobj * string) :=
  match n with
  | O => None
  | S n' =>
      match scan s with
      | None => None
      | Some (value, rest) =>
          match skip_whitespace rest with
          | EmptyString => None
          | String c rest' =>
              if Ascii.eqb c "]" then Some (OList (List.rev (value :: values)), rest')
              else if Ascii.eqb c "," then
                array_loop scan n' (value :: values) (skip_whitespace rest')
              else None
          end
      end
  end.

(** [JSONArray], called just after the opening bracket. *)
Definition JSONArray (scan : string -> option (pyobj * string)) (s : string)
  : option (pyobj * string) :=
  match skip_whitespace s with
  | EmptyString => None
  | String c rest as s' =>
      if Ascii.eqb c "]" then Some (OList [], rest)
      else array_loop scan (String.length s') [] s'
  end.

(** The [while True] loop of [JSONObject], entered just after the
    opening quote of a key. *)
Fixpoint object_loop (scan : string -> option (pyobj * string))
         (n : nat) (pairs : list (list N * pyobj)) (s : string)
  : option (pyobj * string) :=
  match n with
  | O => None
  | S n' =>
      match scanstring s with
      | None => None
      | Some (key, rest) =>
          match skip_whitespace rest with
          | EmptyString => None
          | String c rest' =>
              if Ascii.eqb c ":" then
                match scan (skip_whitespace rest') with
                | None => None
                | Some (value, rest'') =>
                    match skip_whitespace rest'' with
                    | EmptyString => None
                    | String c' after =>
                        if Ascii.eqb c' "}" then
                          Some (ODict (obj_of_pairs (List.rev ((key, value) :: pairs))), after)
                        else if Ascii.eqb c' "," then
                          match skip_whitespace after with
                          | EmptyString => None
                          | String q after' =>
                              if Ascii.eqb q quote
                              then object_loop scan n' ((key, value) :: pairs) after'
                              else None
                          end
                        else None
                    end
                end
              else None
          end
      end
  end.

(** [JSONObject], called just after the opening brace. *)
Definition JSONObject (scan : string -> option (pyobj * string)) (s : string)
  : option (pyobj * string) :=
  match skip_whitespace s with
  | EmptyString => None
  | String c rest =>
      if Ascii.eqb c "}" then Some (ODict [], rest)
      else if Ascii.eqb c quote then object_loop scan (String.length rest) [] rest
      else None
  end.

(** [_scan_once]: one JSON value at the start of [s].  [depth] bounds
    the nesting of arrays and objects. *)
Fixpoint scan_once (depth : nat) (s : string) : option (pyobj * string) :=
  match depth with
  | O => None
  | S depth' =>
      match s with
      | EmptyString => None
      | String c rest =>
          if Ascii.eqb c quote then
            match scanstring rest with
            | Some (points, rest') => Some (OStr points, rest')
            | None => None
            end
          else if Ascii.eqb c "{" then JSONObject (scan_once depth') rest
          else if Ascii.eqb c "[" then JSONArray (scan_once depth') rest
          else if Ascii.eqb c "n" then
            match strip_prefix "ull" rest with
            | Some rest' => Some (ONone, rest')
            | None => None
            end
          else if Ascii.eqb c "t" then
            match strip_prefix "rue" rest with
            | Some rest' => Some (OBool true, rest')
            | None => None
            end
          else if Ascii.eqb c "f" then
            match strip_prefix "alse" rest with
            | Some rest' => Some (OBool false, rest')
            | None => None
            end
          else
            match scan_number s with
            | Some found => Some found
            | None => scan_constant s
            end
      end
  end.

(** [JSONDecoder.decode]: one value, surrounded by optional
    whitespace and nothing else.  Every level of nesting consumes a
    bracket, so the length of the text bounds the depth. *)
Definition decode (s : string) : option pyobj :=
  match scan_once (S (String.length s)) (skip_whitespace s) with
  | Some (obj, rest) =>
      match skip_whitespace rest with
      | EmptyString => Some obj
      | String _ _ => None
      end
  | None => None
  end.

(** [json.loads(s)]; [None] stands for [JSONDecodeError]. *)
Definition loads (s : string) : option pyobj := decode s.

(** *** Vocabulary of the round trip *)

(** What may follow a value inside the encoder's output: the end of
    the text, a comma, or a closing bracket or brace. *)
Definition delimited (rest : string) : bool :=
  match rest with
  | EmptyString => true
  | String c _ => Ascii.eqb c "," || Ascii.eqb c "]" || Ascii.eqb c "}"
  end.

(** The characters a JSON value can start with. *)
Definition value_start (c : ascii) : bool :=
  Ascii.eqb c quote || Ascii.eqb c "{" || Ascii.eqb c "[" || Ascii.eqb c "n"
  || Ascii.eqb c "t" || Ascii.eqb c "f" || Ascii.eqb c "-" || is_digit c.

(** One [key: value] item as the encoder writes it. *)
Definition encode_entry (kv : string * pyval) : string :=
  encode_basestring_ascii (fst kv) ++ ": " ++ encode (snd kv).

(** The entries of a dictionary of the caller, as [json.loads] builds
    them. *)
Definition obj_entries (entries : list (string * pyval)) : list (list N * pyobj) :=
  map (fun kv => (codes (fst kv), obj_of (snd kv))) entries.

(** A scanner reads back what the encoder wrote for [v]. *)
Definition reads_back (scan : string -> option (pyobj * string)) (v : pyval) : Prop :=
  forall rest, delimited rest = true -> scan (encode v ++ rest) = Some (obj_of v, rest).

(** A scanner that succeeds leaves less text than it was given. *)
Definition consumes (scan : string -> option (pyobj * string)) : Prop :=
  forall s v rest, scan s = Some (v, rest) -> (String.length rest < String.length s)%nat.

(** Two scanners that agree on every text no longer than [s] drive the
    loops to the same result on [s]. *)
Definition agree_upto (s : string) (scan1 scan2 : string -> option (pyobj * string)) : Prop :=
  forall t, (String.length t <= String.length s)%nat -> scan1 t = scan2 t.

End Json.
Import Json.

(** ** The [requests] library *)

Module Requests.

Inductive http_method : Type := GET | POST.

(** The arguments of one [requests.get] or [requests.post] call. *)
Record Request : Type := {
  method : http_method;
  url : string;
  params : list (string * pyval);
  json : option pyval;
  headers : list (string * string)
}.

(** What the client reads of a response: [status_code] and the decoded
    body [text]. *)
Record Response : Type := {
  status_code : Z;
  text : string
}.

(** The exceptions a call can raise; [HTTPError] carries the response,
    as [requests.HTTPError.response] does. *)
Inductive exn : Type :=
| HTTPError (response : Response)
| JSONDecodeError
| AttributeError
| ConnectionError.

Inductive outcome (A : Type) : Type :=
| Return (a : A)
| Raise (e : exn).
Arguments Return {A} a.
Arguments Raise {A} e.

(** A 4xx or 5xx status, the condition of [raise_for_status]. *)
Definition is_error_status (status : Z) : bool := (400 <=? status) && (status <? 600).

(** The body [requests] puts on the wire for the [json=] argument. *)
Definition body (r : Request) : option string :=
  match json r with
  | Some obj => Some (Json.dumps obj)
  | None => None
  end.

(** The remote side: the response to a request, given the requests
    seen before it; [None] when no response arrives. *)
Definition Network : Type := list Request -> Request -> option Response.

(** Calls run on an object with attributes [Obj] and on the wire: a
    state and exception monad that reads the network. *)
Section Monad.
Context {Obj : Type}.

Record State : Type := {
  self : Obj;
  wire : list Request
}.

Definition M (A : Type) : Type := Network -> State -> outcome A * State.

Definition ret {A : Type} (a : A) : M A := fun _ st => (Return a, st).

Definition raise {A : Type} (e : exn) : M A := fun _ st => (Raise e, st).

Definition bind {A B : Type} (m : M A) (k : A -> M B) : M B :=
  fun net st =>
    match m net st with
    | (Return a, st') => k a net st'
    | (Raise e, st') => (Raise e, st')
    end.

(** [self.<attribute>]. *)
Definition attr {A : Type} (field : Obj -> A) : M A :=
  fun _ st => (Return (field (self st)), st).

(** One request goes out; the response comes back, or the transport
    fails. *)
Definition send (r : Request) : M Response :=
  fun net st =>
    let st' := {| self := self st; wire := (wire st ++ [r])%list |} in
    match net (wire st) r with
    | Some response => (Return response, st')
    | None => (Raise ConnectionError, st')
    end.

(** [requests.post(url, json=..., headers=...)]. *)
Definition post (url : string) (json : pyval) (headers : list (string * string))
  : M Response :=
  send {| method := POST; url := url; params := []; json := Some json;
          headers := headers |}.

(** [requests.get(url, params=..., headers=...)]. *)
Definition get (url : string) (params : list (string * pyval))
           (headers : list (string * string)) : M Response :=
  send {| method := GET; url := url; params := params; json := None;
          headers := headers |}.

(** [Response.raise_for_status]. *)
Definition raise_for_status (response : Response) : M unit :=
  if is_error_status (status_code response)
  then raise (HTTPError response)
  else ret tt.

(** [Response.json]. *)
Definition response_json (response : Response) : M pyobj :=
  match Json.loads (text response) with
  | Some data => ret data
  | None => raise JSONDecodeError
  end.

(** [data.get(key, default)]: only a [dict] has the method. *)
Definition get_method (data : pyobj) (key : string) (default : pyobj) : M pyobj :=
  match data with
  | ODict d => ret (obj_get d (codes key) default)
  | _ => raise AttributeError
  end.

End Monad.

Arguments State : clear implicits.
Arguments M : clear implicits.

End Requests.
Import Requests.

Declare Scope py_scope.
Delimit Scope py_scope with py.
Notation "x <- m ;; k" := (bind m (fun x => k))
  (at level 61, m at next level, right associativity) : py_scope.
Notation "m ;;; k" := (bind m (fun _ => k))
  (at level 61, right associativity) : py_scope.

(** ** [class MemoryMeshClient] *)

Module MemoryMeshClient.

(** The attributes of an instance. *)
Record instance : Type := {
  api_key : string;
  base_url : string
}.

Definition default_base_url : string := "https://api.example.com".

(** [limit: int = 10]. *)
Definition default_limit : Z := 10.

Definition __init__ (api_key : string) (base_url : option string) : instance :=
  {| api_key := api_key;
     base_url := or_ base_url default_base_url |}.

Definition optional_dict (d : option pydict) : pyval :=
  match d with
  | Some entries => PDict entries
  | None => PNone
  end.

Local Open Scope py_scope.

Definition add_memories (memories : list pydict) : M instance pyobj :=
  base_url <- attr base_url ;;
  api_key <- attr api_key ;;
  response <- post (base_url ++ "/api/v1/mesh/memories")
                   (PDict [("memories", PList (map PDict memories))])
                   [("Content-Type", "application/json");
                    ("Authorization", "Bearer " ++ api_key)] ;;
  raise_for_status response ;;;
  data <- response_json response ;;
  get_method data "stored_ids" (OList []).

Definition query_memories (query : string) (limit : Z) (filters : option pydict)
  : M instance pyobj :=
  let params := [("q", PStr query); ("limit", PInt limit)] in
  let params :=
    if truthy filters
    then dict_set params "filters" (PStr (Json.dumps (optional_dict filters)))
    else params in
  base_url <- attr base_url ;;
  api_key <- attr api_key ;;
  response <- get (base_url ++ "/api/v1/mesh/memories/query")
                  params
                  [("Authorization", "Bearer " ++ api_key)] ;;
  raise_for_status response ;;;
  data <- response_json response ;;
  get_method data "hits" (OList []).

End MemoryMeshClient.
Import MemoryMeshClient.

(** ** Calls and what they put on the wire *)

(** The request [add_memories] hands to [requests.post]. *)
Definition add_memories_request (client : instance) (memories : list pydict) : Request :=
  {| method := POST;
     url := base_url client ++ "/api/v1/mesh/memories";
     params := [];
     json := Some (PDict [("memories", PList (map PDict memories))]);
     headers := [("Content-Type", "application/json");
                 ("Authorization", "Bearer " ++ api_key client)] |}.

(** The [params] dictionary [query_memories] builds. *)
Definition query_params (query : string) (limit : Z) (filters : option pydict)
  : list (string * pyval) :=
  match filters with
  | Some (entry :: entries) =>
      [("q", PStr query); ("limit", PInt limit);
       ("filters", PStr (Json.dumps (PDict (entry :: entries))))]
  | _ => [("q", PStr query); ("limit", PInt limit)]
  end.

(** The request [query_memories] hands to [requests.get]. *)
Definition query_memories_request (client : instance) (query : string) (limit : Z)
           (filters : option pydict) : Request :=
  {| method := GET;
     url := base_url client ++ "/api/v1/mesh/memories/query";
     params := query_params query limit filters;
     json := None;
     headers := [("Authorization", "Bearer " ++ api_key client)] |}.

(** What a call makes of the answer to its request. *)
Definition extract (field : string) (answer : option Response) : outcome pyobj :=
  match answer with
  | None => Raise ConnectionError
  | Some response =>
      if is_error_status (status_code response) then Raise (HTTPError response)
      else match Json.loads (text response) with
           | None => Raise JSONDecodeError
           | Some (ODict d) => Return (obj_get d (codes field) (OList []))
           | Some _ => Raise AttributeError
           end
  end.

(** The state after request [r] went out. *)
Definition sent (st : State instance) (r : Request) : State instance :=
  {| self := self st; wire := (wire st ++ [r])%list |}.

(** A sequence of calls on one client; the caller goes on after a
    failed call. *)
Inductive call : Type :=
| AddMemories (memories : list pydict)
| QueryMemories (query : string) (limit : Z) (filters : option pydict).

Definition perform (c : call) : M instance pyobj :=
  match c with
  | AddMemories memories => add_memories memories
  | QueryMemories query limit filters => query_memories query limit filters
  end.

Fixpoint perform_all (calls : list call) (net : Network) (st : State instance)
  : State instance :=
  match calls with
  | [] => st
  | c :: rest => perform_all rest net (snd (perform c net st))
  end.

(** The request a call issues on a given client. *)
Definition request_of (client : instance) (c : call) : Request :=
  match c with
  | AddMemories memories => add_memories_request client memories
  | QueryMemories query limit filters =>
      query_memories_request client query limit filters
  end.

(** A quoted JSON string without escapes, for writing response bodies. *)
Definition quoted (s : string) : string := String quote (s ++ String quote EmptyString).

(** A server that answers every request with status 200 and [body]. *)
Definition ok (body : string) : Network :=
  fun _ _ => Some {| status_code := 200; text := body |}.

(** A client that has issued no request yet. *)
Definition fresh (client : instance) : State instance :=
  {| self := client; wire := [] |}.


(** ** Vocabulary of the further properties *)

(** A character from the space to the tilde. *)
Definition printable (c : ascii) : bool :=
  ((32 <=? N_of_ascii c) && (N_of_ascii c <=? 126))%N.

(** A text of printable ASCII characters only. *)
Fixpoint ascii_only (s : string) : bool :=
  match s with
  | EmptyString => true
  | String c rest => printable c && ascii_only rest
  end.

(** A text of JSON whitespace only, the empty text included. *)
Fixpoint blank (s : string) : bool :=
  match s with
  | EmptyString => true
  | String c rest => is_whitespace c && blank rest
  end.

(** A value that has the [get] method. *)
Definition is_dict (v : pyobj) : bool :=
  match v with
  | ODict _ => true
  | _ => false
  end.

(** A server whose answer to a request does not depend on the requests
    that came before it. *)
Definition history_independent (net : Network) : Prop :=
  forall earlier earlier' r, net earlier r = net earlier' r.

(** A network on which no response ever arrives. *)
Definition unreachable : Network := fun _ _ => None.

(** A server that answers every request with the given response. *)
Definition always (response : Response) : Network := fun _ _ => Some response.

(** * Properties *)

(** ** Strings *)

Lemma append_assoc (a b c : string) : (a ++ b) ++ c = a ++ (b ++ c).
Proof.
  induction a as [|x a IH]; simpl; [reflexivity | now rewrite IH].
Qed.

Lemma append_empty_r (a : string) : a ++ EmptyString = a.
Proof.
  induction a as [|x a IH]; simpl; [reflexivity | now rewrite IH].
Qed.

Lemma length_append (a b : string) :
  String.length (a ++ b) = (String.length a + String.length b)%nat.
Proof.
  induction a as [|x a IH]; simpl; [reflexivity | now rewrite IH].
Qed.

(** ** Python dictionaries *)

Lemma unique_keys_NoDup (ks : list string) : unique_keys ks = true <-> NoDup ks.
Proof.
  induction ks as [|k ks IH]; simpl.
  - split; [constructor | reflexivity].
  - rewrite andb_true_iff, negb_true_iff, IH. split.
    + intros [Hk Hks]. constructor; [|assumption].
      intros Hin. apply not_true_iff_false in Hk. apply Hk.
      apply existsb_exists. exists k. split; [assumption | apply String.eqb_refl].
    + intros Hnd. inversion Hnd as [|? ? Hk Hks]; subst. split; [|assumption].
      apply not_true_iff_false. intros Hex. apply existsb_exists in Hex.
      destruct Hex as (k' & Hin & Heq). apply String.eqb_eq in Heq. now subst.
Qed.

Lemma codes_eqb_eq (a b : list N) : codes_eqb a b = true <-> a = b.
Proof.
  revert b. induction a as [|x a IH]; intros [|y b]; simpl;
    try (split; [reflexivity | reflexivity]); try (split; discriminate).
  rewrite andb_true_iff, N.eqb_eq, IH. split.
  - intros [-> ->]. reflexivity.
  - intros H. injection H as -> ->. split; reflexivity.
Qed.

Lemma codes_inj (s t : string) : codes s = codes t -> s = t.
Proof.
  revert t. induction s as [|c s IH]; intros [|d t]; simpl; try congruence.
  intros H. injection H as Hc Hs. apply IH in Hs. subst t. f_equal.
  rewrite <- (ascii_N_embedding c), <- (ascii_N_embedding d). now rewrite Hc.
Qed.

Lemma obj_set_fresh {V : Type} (d : list (list N * V)) (key : list N) (value : V) :
  ~ In key (map fst d) -> obj_set d key value = (d ++ [(key, value)])%list.
Proof.
  induction d as [|[k v] d IH]; simpl; intros Hfresh; [reflexivity|].
  destruct (codes_eqb k key) eqn:Hk.
  - exfalso. apply Hfresh. left. now apply codes_eqb_eq.
  - rewrite IH; [reflexivity|]. intros Hin. apply Hfresh. now right.
Qed.

Lemma obj_of_pairs_from {V : Type} (pairs acc : list (list N * V)) :
  NoDup (map fst (acc ++ pairs)%list) ->
  fold_left (fun d kv => obj_set d (fst kv) (snd kv)) pairs acc = (acc ++ pairs)%list.
Proof.
  revert acc. induction pairs as [|[k v] pairs IH]; intros acc Hnd; simpl.
  - now rewrite List.app_nil_r.
  - rewrite obj_set_fresh.
    + rewrite IH; rewrite <- List.app_assoc; [reflexivity | exact Hnd].
    + rewrite map_app in Hnd. simpl in Hnd. apply NoDup_remove_2 in Hnd.
      intros Hin. apply Hnd. apply in_or_app. now left.
Qed.

(** Rebuilding a dictionary from its own entries changes nothing. *)
Lemma obj_of_pairs_unique (entries : list (string * pyval)) :
  unique_keys (map fst entries) = true ->
  obj_of_pairs (obj_entries entries) = obj_entries entries.
Proof.
  intros Hu. unfold obj_of_pairs. rewrite obj_of_pairs_from; [reflexivity|].
  cbn [List.app]. apply unique_keys_NoDup in Hu. unfold obj_entries. rewrite map_map.
  cbn [fst]. rewrite <- (map_map fst codes).
  clear - Hu. induction Hu as [|k ks Hk Hks IH]; simpl; constructor; [|exact IH].
  intros Hin. apply in_map_iff in Hin. destruct Hin as (k' & Heq & Hin).
  apply codes_inj in Heq. now subst k'.
Qed.

(** Distinct values of the caller are distinct objects. *)
Lemma obj_of_injective (v w : pyval) : obj_of v = obj_of w -> v = w.
Proof.
  revert w. induction v as [|b|z|s|items IH|entries IH] using pyval_ind;
    intros [|b'|z'|s'|items'|entries'] H; try discriminate H;
    try (injection H as H; subst; reflexivity).
  - reflexivity.
  - injection H as H. apply codes_inj in H. now subst.
  - injection H as H. f_equal. revert items' H.
    induction IH as [|x items Hx Hitems IHitems]; intros [|y items'] H;
      try discriminate H; [reflexivity|].
    injection H as Hxy Hrest. f_equal; [now apply Hx | now apply IHitems].
  - injection H as H. f_equal. revert entries' H.
    induction IH as [|[k x] entries Hx Hentries IHentries]; intros [|[k' y] entries'] H;
      try discriminate H; [reflexivity|].
    injection H as Hk Hxy Hrest. apply codes_inj in Hk. subst k'.
    f_equal; [f_equal; now apply Hx | now apply IHentries].
Qed.

(** ** JSON text: strings *)

Lemma scanstring_escape_char (c : ascii) (t : string) :
  scanstring (escape_char c ++ t) = prepend (N_of_ascii c) (scanstring t).
Proof.
  destruct c as [[] [] [] [] [] [] [] []]; reflexivity.
Qed.

Lemma scanstring_escape (s rest : string) :
  scanstring (escape s ++ String quote rest) = Some (codes s, rest).
Proof.
  induction s as [|c s IH]; simpl.
  - reflexivity.
  - rewrite append_assoc, scanstring_escape_char, IH. reflexivity.
Qed.

(** ** JSON text: numbers *)

Lemma delimited_cases (rest : string) :
  delimited rest = true ->
  rest = EmptyString \/
  exists t, rest = String "," t \/ rest = String "]" t \/ rest = String "}" t.
Proof.
  destruct rest as [|c t]; simpl; intros H; [now left|right].
  exists t. apply orb_true_iff in H. destruct H as [H|H].
  - apply orb_true_iff in H. destruct H as [H|H]; apply Ascii.eqb_eq in H; subst; auto.
  - apply Ascii.eqb_eq in H; subst; auto.
Qed.

Lemma delimited_not_float (rest : string) :
  delimited rest = true -> float_part_follows rest = false.
Proof.
  intros H. destruct (delimited_cases rest H) as [-> | (t & [-> | [-> | ->]])];
    try reflexivity; destruct t; reflexivity.
Qed.

Lemma scan_digits_stop (rest : string) :
  delimited rest = true -> scan_digits rest = (Nil, rest).
Proof.
  intros H. destruct (delimited_cases rest H) as [-> | (t & [-> | [-> | ->]])]; reflexivity.
Qed.

Lemma scan_digits_string_of_uint (d : uint) (rest : string) :
  delimited rest = true ->
  scan_digits (NilEmpty.string_of_uint d ++ rest) = (d, rest).
Proof.
  intros H. induction d; simpl; try rewrite IHd; try reflexivity.
  now apply scan_digits_stop.
Qed.

Lemma unorm_leading_zero (d d' : uint) : unorm d = D0 d' -> d' = Nil.
Proof.
  induction d; simpl; intros H; try discriminate; auto.
  now injection H as <-.
Qed.

Lemma to_uint_unorm (p : positive) : unorm (Pos.to_uint p) = Pos.to_uint p.
Proof.
  rewrite <- (DecimalPos.Unsigned.to_of (Pos.to_uint p)).
  now rewrite DecimalPos.Unsigned.of_to.
Qed.

Lemma to_uint_no_leading_zero (p : positive) (d : uint) : Pos.to_uint p <> D0 d.
Proof.
  intros H. pose proof (to_uint_unorm p) as Hn. rewrite H in Hn.
  pose proof (unorm_leading_zero _ _ Hn) as Hd.
  assert (unorm (D0 d) = D0 Nil) as Hz.
  { clear - Hd. subst d. reflexivity. }
  rewrite Hz in Hn. injection Hn as <-.
  exact (DecimalPos.Unsigned.to_uint_nonzero p H).
Qed.

Lemma scan_natural_pos (p : positive) (rest : string) :
  delimited rest = true ->
  scan_natural (NilEmpty.string_of_uint (Pos.to_uint p) ++ rest) = Some (Z.pos p, rest).
Proof.
  intros H.
  assert (Z.of_uint (Pos.to_uint p) = Z.pos p) as Hz.
  { unfold Z.of_uint. now rewrite DecimalPos.Unsigned.of_to. }
  pose proof (scan_digits_string_of_uint (Pos.to_uint p) rest H) as Hd.
  pose proof (to_uint_no_leading_zero p) as Hnz.
  pose proof (DecimalPos.Unsigned.to_uint_nonnil p) as Hnn.
  destruct (Pos.to_uint p) as [|d|d|d|d|d|d|d|d|d|d];
    try (exfalso; now apply Hnn); try (exfalso; now apply (Hnz d));
    unfold scan_natural; cbn [NilEmpty.string_of_uint append];
    cbn [NilEmpty.string_of_uint append] in Hd;
    (match goal with |- context [Ascii.eqb ?c ?z] => change (Ascii.eqb c z) with false end);
    (match goal with |- context [is_digit ?c] => change (is_digit c) with true end);
    cbv iota; rewrite Hd, Hz; reflexivity.
Qed.

Lemma int_repr_pos (p : positive) :
  int_repr (Z.pos p) = NilEmpty.string_of_uint (Pos.to_uint p).
Proof.
  unfold int_repr. simpl. pose proof (DecimalPos.Unsigned.to_uint_nonnil p) as Hnn.
  destruct (Pos.to_uint p); try reflexivity. now exfalso.
Qed.

Lemma int_repr_neg (p : positive) :
  int_repr (Z.neg p) = String "-" (NilEmpty.string_of_uint (Pos.to_uint p)).
Proof.
  unfold int_repr. simpl. pose proof (DecimalPos.Unsigned.to_uint_nonnil p) as Hnn.
  destruct (Pos.to_uint p); try reflexivity. now exfalso.
Qed.

(** A decimal integer written by the encoder is read back as the same
    integer, up to the delimiter after it. *)
Lemma scan_number_int_repr (z : Z) (rest : string) :
  delimited rest = true ->
  scan_number (int_repr z ++ rest) = Some (OInt z, rest).
Proof.
  intros H. pose proof (delimited_not_float rest H) as Hf.
  destruct z as [|p|p].
  - unfold scan_number. simpl. now rewrite Hf.
  - rewrite int_repr_pos. unfold scan_number.
    pose proof (scan_natural_pos p rest H) as Hn.
    pose proof (to_uint_no_leading_zero p) as Hnz.
    pose proof (DecimalPos.Unsigned.to_uint_nonnil p) as Hnn.
    destruct (Pos.to_uint p) as [|d|d|d|d|d|d|d|d|d|d];
      try (exfalso; now apply Hnn);
      cbn [NilEmpty.string_of_uint append] in *;
      (match goal with |- context [Ascii.eqb ?c "-"] => change (Ascii.eqb c "-") with false end);
      cbv iota; rewrite Hn, Hf; reflexivity.
  - rewrite int_repr_neg. unfold scan_number. cbn [append].
    change (Ascii.eqb "-" "-") with true. cbv iota.
    rewrite (scan_natural_pos p rest H), Hf. reflexivity.
Qed.

(** ** JSON text: values *)

Lemma value_start_not_space (c : ascii) :
  value_start c = true ->
  is_whitespace c = false /\ Ascii.eqb c "]" = false /\ Ascii.eqb c "}" = false.
Proof.
  destruct c as [[] [] [] [] [] [] [] []]; intros H; try discriminate H;
    repeat split; reflexivity.
Qed.

Lemma int_repr_start (z : Z) :
  exists c t, int_repr z = String c t /\ (Ascii.eqb c "-" || is_digit c) = true.
Proof.
  destruct z as [|p|p].
  - now exists "0"%char, EmptyString.
  - rewrite int_repr_pos. pose proof (DecimalPos.Unsigned.to_uint_nonnil p) as Hnn.
    destruct (Pos.to_uint p); try (now exfalso); simpl; eauto.
  - rewrite int_repr_neg. eauto.
Qed.

Lemma encode_start (v : pyval) :
  exists c t, encode v = String c t /\ value_start c = true.
Proof.
  destruct v as [|[]|z|s|items|entries];
    try (simpl; eexists _, _; split; reflexivity).
  cbn [encode]. destruct (int_repr_start z) as (c & t & -> & Hc). exists c, t. split; [reflexivity|].
  unfold value_start. apply orb_true_iff in Hc.
  destruct Hc as [Hc|Hc]; rewrite Hc; now rewrite ?orb_true_r.
Qed.

Lemma skip_whitespace_encode (v : pyval) (t : string) :
  skip_whitespace (encode v ++ t) = encode v ++ t.
Proof.
  destruct (encode_start v) as (c & t' & -> & Hc).
  apply value_start_not_space in Hc. destruct Hc as (Hc & _).
  simpl. now rewrite Hc.
Qed.

Lemma encode_nonempty (v : pyval) : (1 <= String.length (encode v))%nat.
Proof.
  destruct (encode_start v) as (c & t & -> & _). simpl. lia.
Qed.

Lemma concat_length_ge (sep e : string) (l : list string) :
  In e l -> (String.length e <= String.length (String.concat sep l))%nat.
Proof.
  induction l as [|x l IH]; simpl; [tauto|].
  intros [->|Hin].
  - destruct l; [lia|]. rewrite length_append. lia.
  - destruct l as [|y l]; [destruct Hin|].
    specialize (IH Hin). rewrite !length_append. lia.
Qed.

(** Outside of strings, the scanner dispatches on the first character:
    a sign or a digit starts a number. *)
Lemma scan_once_number (depth : nat) (c : ascii) (t : string)
      (found : pyobj * string) :
  (Ascii.eqb c "-" || is_digit c) = true ->
  scan_number (String c t) = Some found ->
  scan_once (S depth) (String c t) = Some found.
Proof.
  destruct c as [[] [] [] [] [] [] [] []]; intros H; try discriminate H;
    intros Hfound;
    match goal with
    | |- scan_once _ ?s = _ =>
        change (scan_once (S depth) s)
          with (match scan_number s with
                | Some found' => Some found'
                | None => scan_constant s
                end)
    end;
    now rewrite Hfound.
Qed.

Lemma array_loop_encode (scan : string -> option (pyobj * string)) (items : list pyval) :
  Forall (reads_back scan) items ->
  forall n values rest,
    items <> [] -> (length items <= n)%nat ->
    array_loop scan n values
               (String.concat ", " (map encode items) ++ String "]" rest)
    = Some (OList (List.rev values ++ map obj_of items), rest).
Proof.
  induction 1 as [|v items Hv Hitems IH]; intros n values rest Hne Hn; [congruence|].
  destruct n as [|n]; [simpl in Hn; lia|].
  destruct items as [|v' items'].
  - cbn [map String.concat array_loop].
    rewrite (Hv (String "]" rest) eq_refl). reflexivity.
  - change (String.concat ", " (map encode (v :: v' :: items')))
      with (encode v ++ ", " ++ String.concat ", " (map encode (v' :: items'))).
    rewrite !append_assoc. cbn [array_loop append].
    unfold reads_back in Hv. rewrite Hv by reflexivity.
    cbn [skip_whitespace is_whitespace Ascii.eqb Bool.eqb orb].
    cbv iota.
    assert (skip_whitespace
              (String.concat ", " (map encode (v' :: items')) ++ String "]" rest)
            = String.concat ", " (map encode (v' :: items')) ++ String "]" rest) as Hs.
    { destruct items'; cbn [map String.concat].
      - apply skip_whitespace_encode.
      - rewrite append_assoc. apply skip_whitespace_encode. }
    rewrite Hs, IH; [|discriminate|simpl in *; lia].
    cbn [List.rev map]. rewrite <- List.app_assoc. reflexivity.
Qed.

Lemma encode_entry_shape (k : string) (v : pyval) (t : string) :
  encode_entry (k, v) ++ t
  = String quote (escape k ++ String quote (String ":" (String " " (encode v ++ t)))).
Proof.
  unfold encode_entry, encode_basestring_ascii. cbn [fst snd append].
  rewrite !append_assoc. reflexivity.
Qed.

Lemma concat_entries_shape (kv : string * pyval) (entries : list (string * pyval))
      (t : string) :
  exists s, String.concat ", " (map encode_entry (kv :: entries)) ++ t = String quote s.
Proof.
  destruct kv as [k v]. destruct entries as [|kv' entries]; cbn [map String.concat].
  - rewrite encode_entry_shape. eauto.
  - rewrite append_assoc, encode_entry_shape. eauto.
Qed.

Lemma object_loop_encode (scan : string -> option (pyobj * string))
      (entries : list (string * pyval)) :
  Forall (fun kv => reads_back scan (snd kv)) entries ->
  forall n pairs rest s,
    entries <> [] -> (length entries <= n)%nat ->
    String quote s = String.concat ", " (map encode_entry entries) ++ String "}" rest ->
    object_loop scan n pairs s
    = Some (ODict (obj_of_pairs (List.rev pairs ++ obj_entries entries)), rest).
Proof.
  induction 1 as [|[k v] entries Hv Hentries IH]; intros n pairs rest s Hne Hn Hs;
    [congruence|].
  destruct n as [|n]; [simpl in Hn; lia|].
  cbn [snd] in Hv.
  destruct entries as [|kv' entries'].
  - cbn [map String.concat] in Hs. rewrite encode_entry_shape in Hs.
    injection Hs as ->. cbn [object_loop]. rewrite scanstring_escape.
    cbn [skip_whitespace is_whitespace Ascii.eqb Bool.eqb orb]. cbv iota.
    rewrite skip_whitespace_encode, (Hv (String "}" rest) eq_refl).
    reflexivity.
  - destruct (concat_entries_shape kv' entries' (String "}" rest)) as (s' & Hs').
    change (String.concat ", " (map encode_entry ((k, v) :: kv' :: entries')))
      with (encode_entry (k, v) ++ ", "
            ++ String.concat ", " (map encode_entry (kv' :: entries'))) in Hs.
    rewrite append_assoc, encode_entry_shape, append_assoc, Hs' in Hs.
    injection Hs as ->. cbn [object_loop]. rewrite scanstring_escape.
    cbn [skip_whitespace is_whitespace Ascii.eqb Bool.eqb orb]. cbv iota.
    rewrite skip_whitespace_encode. cbn [append].
    unfold reads_back in Hv. rewrite Hv by reflexivity.
    change (skip_whitespace (String "," (String " " (String quote s'))))
      with (String "," (String " " (String quote s'))).
    cbv iota.
    change (skip_whitespace (String " " (String quote s'))) with (String quote s').
    cbv iota.
    change (Ascii.eqb "," "}") with false. change (Ascii.eqb "," ",") with true.
    change (Ascii.eqb quote quote) with true. cbv iota.
    rewrite (IH n ((codes k, obj_of v) :: pairs) rest s');
      [|discriminate|simpl in *; lia|now rewrite Hs'].
    cbn [List.rev]. rewrite <- List.app_assoc. reflexivity.
Qed.

Lemma encode_list_shape (items : list pyval) (rest : string) :
  encode (PList items) ++ rest
  = String "[" (String.concat ", " (map encode items) ++ String "]" rest).
Proof.
  cbn [encode append]. rewrite append_assoc. reflexivity.
Qed.

Lemma encode_dict_shape (entries : list (string * pyval)) (rest : string) :
  encode (PDict entries) ++ rest
  = String "{" (String.concat ", " (map encode_entry entries) ++ String "}" rest).
Proof.
  cbn [encode append]. rewrite append_assoc. reflexivity.
Qed.

Lemma concat_items_shape (v : pyval) (items : list pyval) (t : string) :
  exists c t',
    String.concat ", " (map encode (v :: items)) ++ t = String c t'
    /\ value_start c = true.
Proof.
  destruct (encode_start v) as (c & t0 & Hc & Hstart).
  destruct items as [|v' items]; cbn [map String.concat];
    rewrite ?append_assoc, Hc; cbn [append]; eauto.
Qed.

Lemma concat_items_count (items : list pyval) :
  (length items <= String.length (String.concat ", " (map encode items)))%nat.
Proof.
  induction items as [|v items IH]; [simpl; lia|].
  pose proof (encode_nonempty v). destruct items as [|v' items].
  - simpl. lia.
  - change (String.concat ", " (map encode (v :: v' :: items)))
      with (encode v ++ ", " ++ String.concat ", " (map encode (v' :: items))).
    rewrite !length_append. simpl in *. lia.
Qed.

Lemma concat_entries_count (entries : list (string * pyval)) :
  (length entries <= String.length (String.concat ", " (map encode_entry entries)))%nat.
Proof.
  assert (forall kv, (1 <= String.length (encode_entry kv))%nat) as Hpos.
  { intros kv. unfold encode_entry, encode_basestring_ascii. simpl. lia. }
  induction entries as [|kv entries IH]; [simpl; lia|].
  pose proof (Hpos kv). destruct entries as [|kv' entries].
  - simpl. lia.
  - change (String.concat ", " (map encode_entry (kv :: kv' :: entries)))
      with (encode_entry kv ++ ", "
            ++ String.concat ", " (map encode_entry (kv' :: entries))).
    rewrite !length_append. simpl in *. lia.
Qed.

(** The scanner reads back every well-formed value the encoder wrote,
    as soon as the depth bound covers the length of the text. *)
Lemma scan_once_encode (v : pyval) :
  well_formed v = true ->
  forall depth, (String.length (encode v) <= depth)%nat ->
  reads_back (scan_once depth) v.
Proof.
  induction v as [|b|z|s|items IH|entries IH] using pyval_ind;
    intros Hwf depth Hdepth rest Hrest;
    match type of Hdepth with
    | (String.length (encode ?x) <= _)%nat => pose proof (encode_nonempty x) as Hpos
    end;
    (destruct depth as [|depth]; [lia|]); clear Hpos.
  - reflexivity.
  - destruct b; reflexivity.
  - cbn [encode]. destruct (int_repr_start z) as (c & t & Hz & Hc).
    pose proof (scan_number_int_repr z rest Hrest) as Hnum.
    rewrite Hz in *. cbn [append] in *. now apply scan_once_number.
  - cbn [encode]. unfold encode_basestring_ascii. cbn [append scan_once].
    change (Ascii.eqb quote quote) with true. cbv iota.
    rewrite append_assoc. cbn [append]. now rewrite scanstring_escape.
  - rewrite encode_list_shape. cbn [scan_once].
    change (Ascii.eqb "[" quote) with false. change (Ascii.eqb "[" "{") with false.
    change (Ascii.eqb "[" "[") with true. cbv iota.
    unfold JSONArray. destruct items as [|v items]; [reflexivity|].
    assert (reads_back (scan_once depth) v /\ Forall (reads_back (scan_once depth)) items)
      as [Hv Hitems].
    { cbn [well_formed forallb] in Hwf. apply andb_true_iff in Hwf.
      destruct Hwf as [Hwfv Hwfs].
      cbn [encode] in Hdepth. rewrite !length_append in Hdepth.
      cbn [String.length] in Hdepth.
      inversion IH as [|? ? IHv IHs]; subst. split.
      - apply IHv; [assumption|].
        pose proof (concat_length_ge ", " (encode v) (map encode (v :: items))
                      (or_introl eq_refl)). lia.
      - rewrite Forall_forall in IHs |- *. intros x Hx. apply IHs; [assumption| |].
        + rewrite forallb_forall in Hwfs. now apply Hwfs.
        + pose proof (concat_length_ge ", " (encode x) (map encode (v :: items))
                        (or_intror (in_map encode _ _ Hx))). lia. }
    pose proof (array_loop_encode (scan_once depth) (v :: items)
                  (Forall_cons v Hv Hitems)) as Hloop.
    destruct (concat_items_shape v items (String "]" rest)) as (c & t & Hhead & Hstart).
    apply value_start_not_space in Hstart. destruct Hstart as (Hws & Hb & _).
    rewrite Hhead. cbn [skip_whitespace]. rewrite Hws, Hb. rewrite <- Hhead.
    rewrite Hloop; [reflexivity|discriminate|].
    rewrite length_append. pose proof (concat_items_count (v :: items)). lia.
  - rewrite encode_dict_shape. cbn [scan_once].
    change (Ascii.eqb "{" quote) with false. change (Ascii.eqb "{" "{") with true.
    cbv iota. unfold JSONObject. destruct entries as [|kv entries]; [reflexivity|].
    cbn [well_formed] in Hwf. apply andb_true_iff in Hwf. destruct Hwf as [Huniq Hwfs].
    assert (Forall (fun kv => reads_back (scan_once depth) (snd kv)) (kv :: entries))
      as Hall.
    { rewrite Forall_forall in IH |- *. intros x Hx. apply IH; [assumption| |].
      - rewrite forallb_forall in Hwfs. now apply Hwfs.
      - pose proof (f_equal String.length (encode_dict_shape (kv :: entries) EmptyString))
          as Hl.
        rewrite append_empty_r in Hl. rewrite Hl in Hdepth.
        cbn [String.length] in Hdepth. rewrite length_append in Hdepth.
        pose proof (concat_length_ge ", " (encode_entry x) (map encode_entry (kv :: entries))
                      (in_map encode_entry _ _ Hx)) as Hx'.
        unfold encode_entry at 1 in Hx'. rewrite !length_append in Hx'. lia. }
    destruct (concat_entries_shape kv entries (String "}" rest)) as (s & Hs).
    rewrite Hs. cbn [skip_whitespace].
    change (is_whitespace quote) with false. change (Ascii.eqb quote "}") with false.
    change (Ascii.eqb quote quote) with true. cbv iota.
    rewrite (object_loop_encode (scan_once depth) (kv :: entries) Hall _ [] rest s);
      [ | discriminate | | now rewrite Hs ].
    + cbn [List.rev List.app]. now rewrite obj_of_pairs_unique.
    + assert (String.length (String quote s)
              = String.length (String.concat ", " (map encode_entry (kv :: entries))
                               ++ String "}" rest)) as Hl by now rewrite Hs.
      rewrite length_append in Hl. cbn [String.length] in Hl.
      pose proof (concat_entries_count (kv :: entries)). lia.
Qed.

(** Decoding the text [json.dumps] wrote for a well-formed value gives
    the value back, as an object. *)
Lemma loads_dumps (v : pyval) :
  well_formed v = true -> loads (dumps v) = Some (obj_of v).
Proof.
  intros Hwf. unfold loads, dumps, decode.
  pose proof (skip_whitespace_encode v EmptyString) as Hs.
  rewrite append_empty_r in Hs. rewrite Hs.
  pose proof (scan_once_encode v Hwf (S (String.length (encode v))) (Nat.le_succ_diag_r _)
                EmptyString eq_refl) as Hscan.
  rewrite append_empty_r in Hscan. rewrite Hscan. reflexivity.
Qed.

(** ** JSON text: what the scanner makes of floats and escapes *)

Example loads_float :
  loads "[0.5, -1E+3, 10]" = Some (OList [OFloat "0.5"; OFloat "-1E+3"; OInt 10]).
Proof.
  reflexivity.
Qed.

Example loads_constants :
  loads "[NaN, -Infinity]" = Some (OList [OFloat "NaN"; OFloat "-Infinity"]).
Proof.
  reflexivity.
Qed.

Example loads_wide_escape :
  loads (quoted "\u4e2d") = Some (OStr [20013%N]).
Proof.
  reflexivity.
Qed.

Example loads_surrogate_pair :
  loads (quoted "\ud83d\ude00") = Some (OStr [128512%N])
  /\ loads (quoted "\ud83dA") = Some (OStr [55357%N; 65%N]).
Proof.
  split; reflexivity.
Qed.

Example loads_not_a_number :
  loads "1." = None /\ loads "1e" = None /\ loads "01" = None /\ loads "-" = None.
Proof.
  repeat split.
Qed.

(** ** JSON text: the bounds of the scanner *)

Lemma skip_whitespace_length (s : string) :
  (String.length (skip_whitespace s) <= String.length s)%nat.
Proof.
  induction s as [|c s IH]; simpl; [lia|].
  destruct (is_whitespace c); simpl; lia.
Qed.

Lemma prepend_some (point : N) (r : option (list N * string))
      (points : list N) (rest : string) :
  prepend point r = Some (points, rest) -> exists points', r = Some (points', rest).
Proof.
  destruct r as [[points' rest']|]; simpl; intros H; [|discriminate].
  injection H as _ <-. eauto.
Qed.

Lemma scanstring_consumes (s : string) (points : list N) (rest : string) :
  scanstring s = Some (points, rest) -> (String.length rest < String.length s)%nat.
Proof.
  remember (String.length s) as n eqn:Hn.
  assert (String.length s <= n)%nat as Hle by lia. clear Hn.
  revert s points rest Hle.
  induction n as [|n IH]; intros s points rest Hle H;
    destruct s as [|c r]; simpl in Hle; try discriminate H; try lia.
  assert (forall point t,
             (String.length t <= n)%nat ->
             prepend point (scanstring t) = Some (points, rest) ->
             (String.length rest < n)%nat) as Hnext.
  { intros point t Ht Hp. apply prepend_some in Hp. destruct Hp as (points' & Hp).
    exact (IH t points' rest Ht Hp). }
  cbn [scanstring] in H.
  destruct (Ascii.eqb c quote).
  { injection H as _ <-. simpl. lia. }
  destruct (Ascii.eqb c backslash).
  - destruct r as [|esc r']; [discriminate|].
    destruct (Ascii.eqb esc "u").
    + destruct r' as [|h3 [|h2 [|h1 [|h0 after]]]]; try discriminate.
      cbn [String.length] in *.
      destruct (decode_uXXXX h3 h2 h1 h0) as [uni|]; [|discriminate].
      destruct (is_high_surrogate uni); [|apply Hnext in H; lia].
      destruct after as [|b [|u after']]; try (apply Hnext in H; simpl in *; lia).
      destruct (Ascii.eqb b backslash && Ascii.eqb u "u");
        [|apply Hnext in H; simpl in *; lia].
      destruct after' as [|l3 [|l2 [|l1 [|l0 after'']]]]; try discriminate.
      destruct (decode_uXXXX l3 l2 l1 l0) as [uni2|]; [|discriminate].
      destruct (is_low_surrogate uni2); apply Hnext in H; simpl in *; lia.
    + destruct (unescape esc); [|discriminate].
      apply Hnext in H; simpl in *; lia.
  - destruct (N_of_ascii c <? 32)%N; [discriminate|].
    apply Hnext in H; simpl in *; lia.
Qed.

Lemma scan_digits_length (s : string) :
  (String.length (snd (scan_digits s)) <= String.length s)%nat.
Proof.
  induction s as [|c s IH]; simpl; [lia|].
  destruct (digit_of c); simpl; [|lia].
  destruct (scan_digits s). simpl in *. lia.
Qed.

Lemma scan_natural_consumes (s : string) (z : Z) (rest : string) :
  scan_natural s = Some (z, rest) -> (String.length rest < String.length s)%nat.
Proof.
  destruct s as [|c r]; simpl; [discriminate|].
  destruct (Ascii.eqb c "0").
  { intros H. injection H as _ <-. lia. }
  unfold is_digit. destruct (digit_of c); [|discriminate].
  pose proof (scan_digits_length r) as Hlen.
  destruct (scan_digits r) as [ds rest']. intros H. injection H as _ <-.
  simpl in Hlen. lia.
Qed.

Lemma skip_fraction_length (s : string) :
  (String.length (skip_fraction s) <= String.length s)%nat.
Proof.
  unfold skip_fraction. destruct s as [|c [|d rest]]; try lia.
  destruct (Ascii.eqb c "." && is_digit d); [|lia].
  pose proof (scan_digits_length rest). simpl. lia.
Qed.

Lemma skip_exponent_length (s : string) :
  (String.length (skip_exponent s) <= String.length s)%nat.
Proof.
  unfold skip_exponent. destruct s as [|c [|d rest]]; try lia.
  destruct (Ascii.eqb c "e" || Ascii.eqb c "E"); [|lia].
  destruct (Ascii.eqb d "+" || Ascii.eqb d "-").
  - destruct rest as [|d' rest']; [lia|]. destruct (is_digit d'); [|lia].
    pose proof (scan_digits_length rest'). simpl. lia.
  - destruct (is_digit d); [|lia]. pose proof (scan_digits_length rest). simpl. lia.
Qed.

Lemma scan_number_consumes : consumes scan_number.
Proof.
  intros s v rest. unfold scan_number.
  assert (forall (t : string) (z : Z) (after : string),
             (String.length after < String.length t)%nat ->
             (if float_part_follows after
              then Some (OFloat (consumed t (skip_exponent (skip_fraction after))),
                         skip_exponent (skip_fraction after))
              else Some (OInt z, after)) = Some (v, rest) ->
             (String.length rest < String.length t)%nat) as Hfinish.
  { intros t z after Hafter H.
    pose proof (skip_fraction_length after).
    pose proof (skip_exponent_length (skip_fraction after)).
    destruct (float_part_follows after); injection H as _ <-; lia. }
  destruct s as [|c r]; [discriminate|].
  destruct (Ascii.eqb c "-").
  - destruct (scan_natural r) as [[n rest']|] eqn:Hn; [|discriminate].
    apply scan_natural_consumes in Hn. apply Hfinish. simpl. lia.
  - destruct (scan_natural (String c r)) as [[n rest']|] eqn:Hn; [|discriminate].
    apply scan_natural_consumes in Hn. now apply Hfinish.
Qed.

Lemma strip_prefix_length (word s rest : string) :
  strip_prefix word s = Some rest -> (String.length rest <= String.length s)%nat.
Proof.
  revert s. induction word as [|w word IH]; intros s; simpl.
  - intros H. injection H as <-. lia.
  - destruct s as [|c r]; [discriminate|].
    destruct (Ascii.eqb w c); [|discriminate].
    intros H. apply IH in H. simpl. lia.
Qed.

Lemma scan_constant_consumes : consumes scan_constant.
Proof.
  intros s v rest. unfold scan_constant. destruct s as [|c r]; [discriminate|].
  assert (forall word value,
             match strip_prefix word r with
             | Some rest' => Some (value, rest')
             | None => None
             end = Some (v, rest) ->
             (String.length rest < String.length (String c r))%nat) as Hword.
  { intros word value. destruct (strip_prefix word r) as [rest'|] eqn:Hp; [|discriminate].
    apply strip_prefix_length in Hp. intros H. injection H as _ <-. simpl. lia. }
  destruct (Ascii.eqb c "N"); [apply Hword|].
  destruct (Ascii.eqb c "I"); [apply Hword|].
  destruct (Ascii.eqb c "-"); [apply Hword|discriminate].
Qed.

Lemma array_loop_consumes (scan : string -> option (pyobj * string)) :
  consumes scan -> forall n values, consumes (array_loop scan n values).
Proof.
  intros Hscan n. induction n as [|n IH]; intros values s v rest; simpl; [discriminate|].
  destruct (scan s) as [[value after]|] eqn:Hs; [|discriminate].
  apply Hscan in Hs. pose proof (skip_whitespace_length after) as Hws.
  destruct (skip_whitespace after) as [|c after']; [discriminate|].
  simpl in Hws. destruct (Ascii.eqb c "]").
  { intros H. injection H as _ <-. lia. }
  destruct (Ascii.eqb c ","); [|discriminate].
  intros H. apply IH in H. pose proof (skip_whitespace_length after'). lia.
Qed.

Lemma object_loop_consumes (scan : string -> option (pyobj * string)) :
  consumes scan -> forall n pairs, consumes (object_loop scan n pairs).
Proof.
  intros Hscan n. induction n as [|n IH]; intros pairs s v rest; simpl; [discriminate|].
  destruct (scanstring s) as [[key after_key]|] eqn:Hk; [|discriminate].
  apply scanstring_consumes in Hk. pose proof (skip_whitespace_length after_key) as Hw1.
  destruct (skip_whitespace after_key) as [|c after_colon]; [discriminate|].
  simpl in Hw1. destruct (Ascii.eqb c ":"); [|discriminate].
  pose proof (skip_whitespace_length after_colon) as Hw2.
  destruct (scan (skip_whitespace after_colon)) as [[value after_value]|] eqn:Hv;
    [|discriminate].
  apply Hscan in Hv. pose proof (skip_whitespace_length after_value) as Hw3.
  destruct (skip_whitespace after_value) as [|c' after]; [discriminate|].
  simpl in Hw3. destruct (Ascii.eqb c' "}").
  { intros H. injection H as _ <-. lia. }
  destruct (Ascii.eqb c' ","); [|discriminate].
  pose proof (skip_whitespace_length after) as Hw4.
  destruct (skip_whitespace after) as [|q after']; [discriminate|].
  simpl in Hw4. destruct (Ascii.eqb q quote); [|discriminate].
  intros H. apply IH in H. lia.
Qed.

Lemma scan_once_consumes (depth : nat) : consumes (scan_once depth).
Proof.
  induction depth as [|depth IH]; intros s v rest; cbn [scan_once]; [discriminate|].
  destruct s as [|c r]; [discriminate|].
  destruct (Ascii.eqb c quote).
  { destruct (scanstring r) as [[chars rest']|] eqn:Hs; [|discriminate].
    apply scanstring_consumes in Hs. intros H. injection H as _ <-. simpl. lia. }
  destruct (Ascii.eqb c "{").
  { unfold JSONObject. pose proof (skip_whitespace_length r) as Hws.
    destruct (skip_whitespace r) as [|c' r']; [discriminate|]. simpl in Hws.
    destruct (Ascii.eqb c' "}").
    { intros H. injection H as _ <-. simpl. lia. }
    destruct (Ascii.eqb c' quote); [|discriminate].
    intros H. apply (object_loop_consumes _ IH) in H. simpl. lia. }
  destruct (Ascii.eqb c "[").
  { unfold JSONArray. pose proof (skip_whitespace_length r) as Hws.
    destruct (skip_whitespace r) as [|c' r']; [discriminate|]. simpl in Hws.
    destruct (Ascii.eqb c' "]").
    { intros H. injection H as _ <-. simpl. lia. }
    intros H. apply (array_loop_consumes _ IH) in H. simpl in *. lia. }
  assert (forall word value,
             match strip_prefix word r with
             | Some rest' => Some (value, rest')
             | None => None
             end = Some (v, rest) ->
             (String.length rest < String.length (String c r))%nat) as Hword.
  { intros word value. destruct (strip_prefix word r) as [rest'|] eqn:Hp; [|discriminate].
    apply strip_prefix_length in Hp. intros H. injection H as _ <-. simpl. lia. }
  destruct (Ascii.eqb c "n"); [apply Hword|].
  destruct (Ascii.eqb c "t"); [apply Hword|].
  destruct (Ascii.eqb c "f"); [apply Hword|].
  destruct (scan_number (String c r)) as [found|] eqn:Hnum.
  - intros H. injection H as ->. now apply scan_number_consumes in Hnum.
  - apply scan_constant_consumes.
Qed.

Lemma agree_upto_shorter (s s' : string) (scan1 scan2 : string -> option (pyobj * string)) :
  (String.length s' <= String.length s)%nat ->
  agree_upto s scan1 scan2 -> agree_upto s' scan1 scan2.
Proof.
  intros Hlen H t Ht. apply H. lia.
Qed.

Lemma array_loop_agree (scan1 scan2 : string -> option (pyobj * string)) :
  consumes scan2 ->
  forall n values s,
    agree_upto s scan1 scan2 ->
    array_loop scan1 n values s = array_loop scan2 n values s.
Proof.
  intros Hscan n. induction n as [|n IH]; intros values s Hagree; simpl; [reflexivity|].
  rewrite (Hagree s (Nat.le_refl _)).
  destruct (scan2 s) as [[value after]|] eqn:Hs; [|reflexivity].
  apply Hscan in Hs. pose proof (skip_whitespace_length after) as Hws.
  destruct (skip_whitespace after) as [|c after']; [reflexivity|]. simpl in Hws.
  destruct (Ascii.eqb c "]"); [reflexivity|].
  destruct (Ascii.eqb c ","); [|reflexivity].
  apply IH. apply (agree_upto_shorter s); [|assumption].
  pose proof (skip_whitespace_length after'). lia.
Qed.

Lemma object_loop_agree (scan1 scan2 : string -> option (pyobj * string)) :
  consumes scan2 ->
  forall n pairs s,
    agree_upto s scan1 scan2 ->
    object_loop scan1 n pairs s = object_loop scan2 n pairs s.
Proof.
  intros Hscan n. induction n as [|n IH]; intros pairs s Hagree; simpl; [reflexivity|].
  destruct (scanstring s) as [[key after_key]|] eqn:Hk; [|reflexivity].
  apply scanstring_consumes in Hk. pose proof (skip_whitespace_length after_key) as Hw1.
  destruct (skip_whitespace after_key) as [|c after_colon]; [reflexivity|].
  simpl in Hw1. destruct (Ascii.eqb c ":"); [|reflexivity].
  pose proof (skip_whitespace_length after_colon) as Hw2.
  rewrite (Hagree (skip_whitespace after_colon)) by lia.
  destruct (scan2 (skip_whitespace after_colon)) as [[value after_value]|] eqn:Hv;
    [|reflexivity].
  apply Hscan in Hv. pose proof (skip_whitespace_length after_value) as Hw3.
  destruct (skip_whitespace after_value) as [|c' after]; [reflexivity|].
  simpl in Hw3. destruct (Ascii.eqb c' "}"); [reflexivity|].
  destruct (Ascii.eqb c' ","); [|reflexivity].
  pose proof (skip_whitespace_length after) as Hw4.
  destruct (skip_whitespace after) as [|q after']; [reflexivity|].
  simpl in Hw4. destruct (Ascii.eqb q quote); [|reflexivity].
  apply IH. apply (agree_upto_shorter s); [lia|assumption].
Qed.

(** A loop that may run as many times as the text is long never stops
    for want of iterations. *)
Lemma array_loop_iterations (scan : string -> option (pyobj * string)) :
  consumes scan ->
  forall n m values s,
    (String.length s <= n)%nat -> (String.length s <= m)%nat ->
    array_loop scan n values s = array_loop scan m values s.
Proof.
  intros Hscan n. induction n as [|n IH]; intros m values s Hn Hm.
  - destruct s; [|simpl in Hn; lia]. destruct m; simpl; [reflexivity|].
    destruct (scan EmptyString) as [[value after]|] eqn:Hs; [|reflexivity].
    apply Hscan in Hs. simpl in Hs. lia.
  - destruct m as [|m].
    + destruct s; [|simpl in Hm; lia]. simpl.
      destruct (scan EmptyString) as [[value after]|] eqn:Hs; [|reflexivity].
      apply Hscan in Hs. simpl in Hs. lia.
    + simpl. destruct (scan s) as [[value after]|] eqn:Hs; [|reflexivity].
      apply Hscan in Hs. pose proof (skip_whitespace_length after) as Hws.
      destruct (skip_whitespace after) as [|c after']; [reflexivity|]. simpl in Hws.
      destruct (Ascii.eqb c "]"); [reflexivity|].
      destruct (Ascii.eqb c ","); [|reflexivity].
      pose proof (skip_whitespace_length after'). apply IH; lia.
Qed.

Lemma object_loop_iterations (scan : string -> option (pyobj * string)) :
  consumes scan ->
  forall n m pairs s,
    (String.length s <= n)%nat -> (String.length s <= m)%nat ->
    object_loop scan n pairs s = object_loop scan m pairs s.
Proof.
  intros Hscan n. induction n as [|n IH]; intros m pairs s Hn Hm.
  - destruct s; [|simpl in Hn; lia]. destruct m; reflexivity.
  - destruct m as [|m].
    + destruct s; [|simpl in Hm; lia]. reflexivity.
    + simpl. destruct (scanstring s) as [[key after_key]|] eqn:Hk; [|reflexivity].
      apply scanstring_consumes in Hk.
      pose proof (skip_whitespace_length after_key) as Hw1.
      destruct (skip_whitespace after_key) as [|c after_colon]; [reflexivity|].
      simpl in Hw1. destruct (Ascii.eqb c ":"); [|reflexivity].
      pose proof (skip_whitespace_length after_colon) as Hw2.
      destruct (scan (skip_whitespace after_colon)) as [[value after_value]|] eqn:Hv;
        [|reflexivity].
      apply Hscan in Hv. pose proof (skip_whitespace_length after_value) as Hw3.
      destruct (skip_whitespace after_value) as [|c' after]; [reflexivity|].
      simpl in Hw3. destruct (Ascii.eqb c' "}"); [reflexivity|].
      destruct (Ascii.eqb c' ","); [|reflexivity].
      pose proof (skip_whitespace_length after) as Hw4.
      destruct (skip_whitespace after) as [|q after']; [reflexivity|].
      simpl in Hw4. destruct (Ascii.eqb q quote); [|reflexivity].
      apply IH; lia.
Qed.

(** Any two depth bounds that cover the length of the text give the
    same result: the scanner never fails for want of depth. *)
Lemma scan_once_depth (d : nat) :
  forall d' s,
    (String.length s <= d)%nat -> (String.length s <= d')%nat ->
    scan_once d s = scan_once d' s.
Proof.
  induction d as [|d IH]; intros d' s Hd Hd'.
  - destruct s; [|simpl in Hd; lia]. destruct d'; reflexivity.
  - destruct d' as [|d'].
    + destruct s; [|simpl in Hd'; lia]. reflexivity.
    + destruct s as [|c r]; [reflexivity|]. simpl in Hd, Hd'.
      assert (agree_upto r (scan_once d) (scan_once d')) as Hagree.
      { intros t Ht. apply IH; lia. }
      cbn [scan_once].
      destruct (Ascii.eqb c quote); [reflexivity|].
      destruct (Ascii.eqb c "{").
      { unfold JSONObject. pose proof (skip_whitespace_length r) as Hws.
        destruct (skip_whitespace r) as [|c' r']; [reflexivity|]. simpl in Hws.
        destruct (Ascii.eqb c' "}"); [reflexivity|].
        destruct (Ascii.eqb c' quote); [|reflexivity].
        apply object_loop_agree; [apply scan_once_consumes|].
        apply (agree_upto_shorter r); [lia|assumption]. }
      destruct (Ascii.eqb c "["); [|reflexivity].
      unfold JSONArray. pose proof (skip_whitespace_length r) as Hws.
      destruct (skip_whitespace r) as [|c' r'] eqn:Hr; [reflexivity|]. simpl in Hws.
      destruct (Ascii.eqb c' "]"); [reflexivity|].
      apply array_loop_agree; [apply scan_once_consumes|].
      apply (agree_upto_shorter r); [simpl; lia|assumption].
Qed.

(** [decode] scans with a depth of its own choosing; any other depth
    that covers the text would do. *)
Lemma decode_depth (s : string) (depth : nat) :
  (String.length s <= depth)%nat ->
  scan_once depth (skip_whitespace s)
  = scan_once (S (String.length s)) (skip_whitespace s).
Proof.
  intros Hdepth. pose proof (skip_whitespace_length s).
  apply scan_once_depth; lia.
Qed.

(** ** The two calls, step by step *)

Lemma finish_call (field : string) (answer : option Response) (net : Network)
      (st st' : State instance) :
  bind (fun _ _ => match answer with
                   | Some response => (Return response, st')
                   | None => (Raise ConnectionError, st')
                   end)
       (fun response =>
          bind (raise_for_status response)
               (fun _ => bind (response_json response)
                              (fun data => get_method data field (OList []))))
       net st
  = (extract field answer, st').
Proof.
  unfold bind, extract, raise_for_status, response_json, get_method, is_error_status,
    raise, ret.
  destruct answer as [response|]; [|reflexivity].
  destruct ((400 <=? status_code response) && (status_code response <? 600));
    [reflexivity|].
  destruct (Json.loads (text response)) as [[| | | | | |]|]; reflexivity.
Qed.

Lemma add_memories_run (memories : list pydict) (net : Network) (st : State instance) :
  add_memories memories net st
  = (extract "stored_ids" (net (wire st) (add_memories_request (self st) memories)),
     sent st (add_memories_request (self st) memories)).
Proof.
  rewrite <- (finish_call "stored_ids" _ net st). reflexivity.
Qed.

Lemma query_params_built (query : string) (limit : Z) (filters : option pydict) :
  (if truthy filters
   then dict_set [("q", PStr query); ("limit", PInt limit)] "filters"
                 (PStr (Json.dumps (optional_dict filters)))
   else [("q", PStr query); ("limit", PInt limit)])
  = query_params query limit filters.
Proof.
  destruct filters as [[|entry entries]|]; reflexivity.
Qed.

Lemma query_memories_run (query : string) (limit : Z) (filters : option pydict)
      (net : Network) (st : State instance) :
  query_memories query limit filters net st
  = (extract "hits" (net (wire st) (query_memories_request (self st) query limit filters)),
     sent st (query_memories_request (self st) query limit filters)).
Proof.
  rewrite <- (finish_call "hits" _ net st). unfold query_memories.
  rewrite query_params_built. reflexivity.
Qed.

Lemma perform_state (c : call) (net : Network) (st : State instance) :
  snd (perform c net st) = sent st (request_of (self st) c).
Proof.
  destruct c; simpl; [rewrite add_memories_run | rewrite query_memories_run];
    reflexivity.
Qed.

Lemma perform_all_self (calls : list call) (net : Network) (st : State instance) :
  self (perform_all calls net st) = self st.
Proof.
  revert st. induction calls as [|c calls IH]; intros st; simpl; [reflexivity|].
  now rewrite IH, perform_state.
Qed.

Lemma perform_all_wire (calls : list call) (net : Network) (st : State instance) :
  wire (perform_all calls net st)
  = (wire st ++ map (request_of (self st)) calls)%list.
Proof.
  revert st. induction calls as [|c calls IH]; intros st; simpl.
  - now rewrite List.app_nil_r.
  - rewrite IH, perform_state. simpl. now rewrite <- List.app_assoc.
Qed.

Lemma success_status (status : Z) :
  status < 400 \/ 600 <= status -> is_error_status status = false.
Proof.
  intros H. unfold is_error_status. apply andb_false_iff.
  destruct H; [left; apply Z.leb_gt | right; apply Z.ltb_ge]; lia.
Qed.

Lemma extract_success (field : string) (response : Response)
      (d : list (list N * pyobj)) :
  status_code response < 400 \/ 600 <= status_code response ->
  Json.loads (text response) = Some (ODict d) ->
  extract field (Some response) = Return (obj_get d (codes field) (OList [])).
Proof.
  intros Hstatus Hjson. unfold extract.
  now rewrite (success_status _ Hstatus), Hjson.
Qed.

(** ** The specification, claim by claim *)

(** C1. When the response to the request has a 4xx or 5xx status,
    [add_memories] and [query_memories] raise an [HTTPError] that carries
    the response, hence its status code and body, and return no value. *)
Theorem http_error_is_raised (net : Network) (st : State instance) (response : Response) :
  (forall r, net (wire st) r = Some response) ->
  400 <= status_code response < 600 ->
  (forall memories,
      fst (add_memories memories net st) = Raise (HTTPError response))
  /\ (forall query limit filters,
         fst (query_memories query limit filters net st) = Raise (HTTPError response)).
Proof.
  intros Hnet Hstatus.
  assert (is_error_status (status_code response) = true) as Herr.
  { unfold is_error_status. apply andb_true_iff. split; [apply Z.leb_le | apply Z.ltb_lt]; lia. }
  split; intros.
  - rewrite add_memories_run. simpl. rewrite Hnet. simpl. now rewrite Herr.
  - rewrite query_memories_run. simpl. rewrite Hnet. simpl. now rewrite Herr.
Qed.

Lemma http_error_is_raised_witness :
  let response := {| status_code := 404; text := "not found" |} in
  let net : Network := fun _ _ => Some response in
  fst (add_memories [] net (fresh (__init__ "key" None))) = Raise (HTTPError response)
  /\ fst (query_memories "foo" default_limit None net (fresh (__init__ "key" None)))
     = Raise (HTTPError response).
Proof.
  intros response net.
  destruct (http_error_is_raised net (fresh (__init__ "key" None)) response) as [Hadd Hquery].
  - reflexivity.
  - simpl. lia.
  - split; [apply Hadd | apply Hquery].
Defined.







(** C4. [add_memories] issues one POST request whose JSON body is the
    object with the single key [memories] holding the input sequence:
    decoding the text on the wire gives that object back, for every
    sequence of records, the empty one included. *)
Theorem request_body_round_trip
        (net : Network) (st : State instance) (memories : list pydict) :
  well_formed (PList (map PDict memories)) = true ->
  exists request wire_text,
    wire (snd (add_memories memories net st)) = (wire st ++ [request])%list
    /\ method request = POST
    /\ json request = Some (PDict [("memories", PList (map PDict memories))])
    /\ body request = Some wire_text
    /\ Json.loads wire_text
       = Some (obj_of (PDict [("memories", PList (map PDict memories))])).
Proof.
  intros Hwf. rewrite add_memories_run.
  exists (add_memories_request (self st) memories).
  exists (Json.dumps (PDict [("memories", PList (map PDict memories))])).
  repeat split. apply loads_dumps.
  change (well_formed (PDict [("memories", PList (map PDict memories))]))
    with (true && (well_formed (PList (map PDict memories)) && true)).
  now rewrite Hwf.
Qed.

Lemma request_body_round_trip_witness :
  (exists request wire_text,
      wire (snd (add_memories
                   [[("text", PStr "hello"); ("tags", PList [PStr "a"; PInt 1])]; []]
                   (ok "{}") (fresh (__init__ "key" None))))
      = [request]
      /\ method request = POST
      /\ json request
         = Some (PDict [("memories",
                         PList [PDict [("text", PStr "hello");
                                       ("tags", PList [PStr "a"; PInt 1])];
                                PDict []])])
      /\ body request = Some wire_text
      /\ Json.loads wire_text
         = Some (obj_of
                   (PDict [("memories",
                            PList [PDict [("text", PStr "hello");
                                          ("tags", PList [PStr "a"; PInt 1])];
                                   PDict []])])))
  /\ (exists request wire_text,
         wire (snd (add_memories [] (ok "{}") (fresh (__init__ "key" None)))) = [request]
         /\ method request = POST
         /\ json request = Some (PDict [("memories", PList [])])
         /\ body request = Some wire_text
         /\ Json.loads wire_text = Some (obj_of (PDict [("memories", PList [])]))).
Proof.
  split.
  - apply (request_body_round_trip (ok "{}") (fresh (__init__ "key" None))
             [[("text", PStr "hello"); ("tags", PList [PStr "a"; PInt 1])]; []]).
    reflexivity.
  - apply (request_body_round_trip (ok "{}") (fresh (__init__ "key" None)) []).
    reflexivity.
Defined.

(** C5. [query_memories] issues one GET request with the parameters [q]
    and [limit]; [filters] is among the parameters exactly when the
    filters mapping is neither [None] nor empty, and its value is then
    the JSON text of the mapping, which decodes to the mapping. *)
Theorem query_parameters
        (net : Network) (st : State instance)
        (query : string) (limit : Z) (filters : option pydict) :
  exists request,
    wire (snd (query_memories query limit filters net st)) = (wire st ++ [request])%list
    /\ method request = GET
    /\ dict_lookup (params request) "q" = Some (PStr query)
    /\ dict_lookup (params request) "limit" = Some (PInt limit)
    /\ (dict_lookup (params request) "filters" <> None
        <-> filters <> None /\ filters <> Some [])
    /\ (forall mapping,
           filters = Some mapping -> mapping <> [] ->
           dict_lookup (params request) "filters"
           = Some (PStr (Json.dumps (PDict mapping)))
           /\ (well_formed (PDict mapping) = true ->
               Json.loads (Json.dumps (PDict mapping)) = Some (obj_of (PDict mapping)))).
Proof.
  rewrite query_memories_run.
  exists (query_memories_request (self st) query limit filters).
  split; [reflexivity|]. split; [reflexivity|].
  split; [destruct filters as [[|entry entries]|]; reflexivity|].
  split; [destruct filters as [[|entry entries]|]; reflexivity|].
  split.
  - destruct filters as [[|entry entries]|]; cbn; split.
    + intros H. now exfalso.
    + intros [_ H]. now exfalso.
    + intros _. split; discriminate.
    + intros _. discriminate.
    + intros H. now exfalso.
    + intros [H _]. now exfalso.
  - intros mapping -> Hne. destruct mapping as [|entry entries]; [now exfalso|].
    split; [reflexivity|]. intros Hwf. now apply loads_dumps.
Qed.

Lemma query_parameters_witness :
  exists request,
    wire (snd (query_memories "foo" default_limit (Some [("type", PStr "note")])
                 (ok "{}") (fresh (__init__ "key" None))))
    = [request]
    /\ dict_lookup (params request) "filters"
       = Some (PStr ("{" ++ quoted "type" ++ ": " ++ quoted "note" ++ "}"))
    /\ Json.loads ("{" ++ quoted "type" ++ ": " ++ quoted "note" ++ "}")
       = Some (obj_of (PDict [("type", PStr "note")])).
Proof.
  destruct (query_parameters (ok "{}") (fresh (__init__ "key" None))
              "foo" default_limit (Some [("type", PStr "note")]))
    as (request & Hwire & _ & _ & _ & _ & Hfilters).
  exists request. split; [exact Hwire|].
  destruct (Hfilters [("type", PStr "note")] eq_refl ltac:(discriminate)) as [Hvalue Hback].
  split; [exact Hvalue | exact (Hback eq_refl)].
Defined.

(** C6, as the code has it.  Construction never fails and validates
    nothing.  The API key is stored as given; a base URL that is a
    non-empty string is stored as given, and the fixed default address
    takes its place when it is omitted or empty. *)
Theorem construction_stores (key : string) (url : option string) :
  api_key (__init__ key url) = key
  /\ base_url (__init__ key url)
     = match url with
       | Some (String c s) => String c s
       | Some EmptyString => "https://api.example.com"
       | None => "https://api.example.com"
       end.
Proof.
  destruct url as [[|c s]|]; split; reflexivity.
Qed.

(** C6, as stated, fails: an empty base URL is supplied, not omitted,
    and yet the default is stored in its place. *)
Lemma empty_base_url_not_stored :
  base_url (__init__ "key" (Some EmptyString)) = "https://api.example.com"
  /\ base_url (__init__ "key" (Some EmptyString)) <> EmptyString.
Proof.
  split; [reflexivity | discriminate].
Qed.

(** C7. Every request issued through a client carries the header
    [Authorization: Bearer <api_key>] with the key given at
    construction, and the POST of [add_memories] also carries
    [Content-Type: application/json]. *)
Theorem requests_carry_bearer_token
        (key : string) (url : option string) (calls : list call) (net : Network) :
  Forall (fun request =>
            dict_lookup (headers request) "Authorization" = Some ("Bearer " ++ key)
            /\ (method request = POST ->
                dict_lookup (headers request) "Content-Type" = Some "application/json"))
         (wire (perform_all calls net (fresh (__init__ key url))))
  /\ forall memories,
      exists request,
        wire (snd (add_memories memories net (fresh (__init__ key url)))) = [request]
        /\ method request = POST
        /\ dict_lookup (headers request) "Content-Type" = Some "application/json"
        /\ dict_lookup (headers request) "Authorization" = Some ("Bearer " ++ key).
Proof.
  split.
  - rewrite perform_all_wire. cbn [fresh wire self app].
    apply Forall_forall. intros request Hin. apply in_map_iff in Hin.
    destruct Hin as ([memories|query limit filters] & <- & _); split;
      try reflexivity; discriminate.
  - intros memories. rewrite add_memories_run.
    exists (add_memories_request (__init__ key url) memories).
    repeat split.
Qed.

Lemma requests_carry_bearer_token_witness :
  Forall (fun request =>
            dict_lookup (headers request) "Authorization" = Some "Bearer key"
            /\ (method request = POST ->
                dict_lookup (headers request) "Content-Type" = Some "application/json"))
         (wire (perform_all [AddMemories []; QueryMemories "foo" default_limit None]
                            (ok "{}") (fresh (__init__ "key" None)))).
Proof.
  exact (proj1 (requests_carry_bearer_token "key" None
                  [AddMemories []; QueryMemories "foo" default_limit None] (ok "{}"))).
Defined.

(** C8. Calls leave the client as construction made it: after any
    sequence of calls, whether they return or raise, [api_key] and
    [base_url] are what they were, and no single call changes them. *)
Theorem client_is_stateless
        (calls : list call) (net : Network) (st : State instance) :
  self (perform_all calls net st) = self st
  /\ (forall memories, self (snd (add_memories memories net st)) = self st)
  /\ (forall query limit filters,
         self (snd (query_memories query limit filters net st)) = self st).
Proof.
  split; [apply perform_all_self|]. split; intros.
  - now rewrite add_memories_run.
  - now rewrite query_memories_run.
Qed.

(** C9. A falsy base URL, that is [None] or the empty string, makes the
    client use the default [https://api.example.com]. *)
Theorem falsy_base_url_defaults (key : string) (url : option string) :
  truthy url = false ->
  (url = None \/ url = Some EmptyString)
  /\ base_url (__init__ key url) = "https://api.example.com".
Proof.
  destruct url as [[|c s]|]; intros H; try discriminate H; split; auto.
Qed.

Lemma falsy_base_url_defaults_witness :
  base_url (__init__ "key" (Some EmptyString)) = "https://api.example.com".
Proof.
  apply (falsy_base_url_defaults "key" (Some EmptyString)). reflexivity.
Defined.

(** C10. A field that is present with the value [null] is returned as
    [None]: the empty list stands in only for an absent field. *)
Theorem null_field_is_returned
        (net : Network) (st : State instance) (response : Response)
        (d : list (list N * pyobj)) :
  (forall r, net (wire st) r = Some response) ->
  status_code response < 400 \/ 600 <= status_code response ->
  Json.loads (text response) = Some (ODict d) ->
  (obj_lookup d (codes "stored_ids") = Some ONone ->
   forall memories, fst (add_memories memories net st) = Return ONone)
  /\ (obj_lookup d (codes "hits") = Some ONone ->
      forall query limit filters,
        fst (query_memories query limit filters net st) = Return ONone).
Proof.
  intros Hnet Hstatus Hjson. split; intros Hnull; intros.
  - rewrite add_memories_run. cbn [fst]. rewrite Hnet.
    rewrite (extract_success _ _ d Hstatus Hjson). unfold obj_get. now rewrite Hnull.
  - rewrite query_memories_run. cbn [fst]. rewrite Hnet.
    rewrite (extract_success _ _ d Hstatus Hjson). unfold obj_get. now rewrite Hnull.
Qed.

Lemma null_field_is_returned_witness :
  fst (add_memories []
         (ok ("{" ++ quoted "stored_ids" ++ ": null, " ++ quoted "hits" ++ ": null, "
              ++ quoted "took" ++ ": 0.5}"))
         (fresh (__init__ "key" None)))
  = Return ONone
  /\ fst (query_memories "foo" default_limit None
            (ok ("{" ++ quoted "stored_ids" ++ ": null, " ++ quoted "hits" ++ ": null, "
                 ++ quoted "took" ++ ": 0.5}"))
            (fresh (__init__ "key" None)))
     = Return ONone.
Proof.
  destruct (null_field_is_returned
              (ok ("{" ++ quoted "stored_ids" ++ ": null, " ++ quoted "hits" ++ ": null, "
                   ++ quoted "took" ++ ": 0.5}"))
              (fresh (__init__ "key" None))
              {| status_code := 200;
                 text := "{" ++ quoted "stored_ids" ++ ": null, " ++ quoted "hits"
                         ++ ": null, " ++ quoted "took" ++ ": 0.5}" |}
              [(codes "stored_ids", ONone); (codes "hits", ONone);
               (codes "took", OFloat "0.5")]
              (fun _ => eq_refl) (or_introl eq_refl) eq_refl) as [Hadd Hquery].
  split; [apply (Hadd eq_refl) | apply (Hquery eq_refl)].
Defined.

(** * Further properties of the client *)

(** ** What the calls do with other answers *)

(** X1. A successful response whose body is JSON but not an object makes
    both calls raise [AttributeError]: only a [dict] has [get]. *)
Theorem non_object_body_raises
        (net : Network) (st : State instance) (response : Response) (data : pyobj) :
  (forall r, net (wire st) r = Some response) ->
  status_code response < 400 \/ 600 <= status_code response ->
  Json.loads (text response) = Some data ->
  is_dict data = false ->
  (forall memories, fst (add_memories memories net st) = Raise AttributeError)
  /\ (forall query limit filters,
         fst (query_memories query limit filters net st) = Raise AttributeError).
Proof.
  intros Hnet Hstatus Hjson Hdict.
  assert (forall field, extract field (Some response) = Raise AttributeError) as Hextract.
  { intros field. unfold extract. rewrite (success_status _ Hstatus), Hjson.
    destruct data; try reflexivity. discriminate Hdict. }
  split; intros.
  - rewrite add_memories_run. cbn [fst]. rewrite Hnet. apply Hextract.
  - rewrite query_memories_run. cbn [fst]. rewrite Hnet. apply Hextract.
Qed.

Lemma non_object_body_raises_witness :
  fst (add_memories [] (ok "[0.5]") (fresh (__init__ "key" None))) = Raise AttributeError
  /\ fst (query_memories "foo" default_limit None (ok "1.5") (fresh (__init__ "key" None)))
     = Raise AttributeError.
Proof.
  split.
  - apply (proj1 (non_object_body_raises (ok "[0.5]") (fresh (__init__ "key" None))
                    {| status_code := 200; text := "[0.5]" |} (OList [OFloat "0.5"])
                    (fun _ => eq_refl) (or_introl eq_refl) eq_refl eq_refl)).
  - apply (proj2 (non_object_body_raises (ok "1.5") (fresh (__init__ "key" None))
                    {| status_code := 200; text := "1.5" |} (OFloat "1.5")
                    (fun _ => eq_refl) (or_introl eq_refl) eq_refl eq_refl)).
Defined.

Lemma blank_skipped (s : string) : blank s = true -> skip_whitespace s = EmptyString.
Proof.
  induction s as [|c s IH]; simpl; [reflexivity|].
  intros H. apply andb_true_iff in H. destruct H as [Hc Hs]. rewrite Hc. now apply IH.
Qed.

Lemma blank_not_json (s : string) : blank s = true -> Json.loads s = None.
Proof.
  intros H. unfold Json.loads, decode. now rewrite (blank_skipped s H).
Qed.

(** X2. A successful response with an empty or all-whitespace body makes
    both calls raise [JSONDecodeError]; the empty list is no fallback
    for it. *)
Theorem blank_body_raises
        (net : Network) (st : State instance) (response : Response) :
  (forall r, net (wire st) r = Some response) ->
  status_code response < 400 \/ 600 <= status_code response ->
  blank (text response) = true ->
  (forall memories, fst (add_memories memories net st) = Raise JSONDecodeError)
  /\ (forall query limit filters,
         fst (query_memories query limit filters net st) = Raise JSONDecodeError).
Proof.
  intros Hnet Hstatus Hblank.
  assert (forall field, extract field (Some response) = Raise JSONDecodeError) as Hextract.
  { intros field. unfold extract.
    now rewrite (success_status _ Hstatus), (blank_not_json _ Hblank). }
  split; intros.
  - rewrite add_memories_run. cbn [fst]. rewrite Hnet. apply Hextract.
  - rewrite query_memories_run. cbn [fst]. rewrite Hnet. apply Hextract.
Qed.

Lemma blank_body_raises_witness :
  fst (add_memories []
         (always {| status_code := 204; text := EmptyString |})
         (fresh (__init__ "key" None)))
  = Raise JSONDecodeError
  /\ fst (query_memories "foo" default_limit None
            (always {| status_code := 200; text := "  " |})
            (fresh (__init__ "key" None)))
     = Raise JSONDecodeError.
Proof.
  split.
  - apply (proj1 (blank_body_raises (always {| status_code := 204; text := EmptyString |})
                    (fresh (__init__ "key" None))
                    {| status_code := 204; text := EmptyString |}
                    (fun _ => eq_refl) (or_introl eq_refl) eq_refl)).
  - apply (proj2 (blank_body_raises (always {| status_code := 200; text := "  " |})
                    (fresh (__init__ "key" None))
                    {| status_code := 200; text := "  " |}
                    (fun _ => eq_refl) (or_introl eq_refl) eq_refl)).
Defined.

(** X3. When no response arrives, the exception of the transport
    reaches the caller from both calls, after the one request went out:
    nothing is caught, retried or replaced by a value. *)
Theorem transport_failure_propagates (net : Network) (st : State instance) :
  (forall r, net (wire st) r = None) ->
  (forall memories,
      fst (add_memories memories net st) = Raise ConnectionError
      /\ length (wire (snd (add_memories memories net st))) = S (length (wire st)))
  /\ (forall query limit filters,
         fst (query_memories query limit filters net st) = Raise ConnectionError
         /\ length (wire (snd (query_memories query limit filters net st)))
            = S (length (wire st))).
Proof.
  intros Hnet. split; intros.
  - rewrite add_memories_run. cbn [fst snd sent wire]. rewrite Hnet, List.length_app.
    split; [reflexivity | simpl; lia].
  - rewrite query_memories_run. cbn [fst snd sent wire]. rewrite Hnet, List.length_app.
    split; [reflexivity | simpl; lia].
Qed.

Lemma transport_failure_propagates_witness :
  fst (add_memories [] unreachable (fresh (__init__ "key" None))) = Raise ConnectionError
  /\ length (wire (snd (add_memories [] unreachable (fresh (__init__ "key" None))))) = 1%nat.
Proof.
  apply (proj1 (transport_failure_propagates unreachable (fresh (__init__ "key" None))
                  (fun _ => eq_refl)) []).
Defined.

(** ** What goes out on the wire *)

(** X4. Every call issues exactly one request, whatever comes back: a
    sequence of calls adds as many requests as it has calls, after those
    already sent. *)
Theorem one_request_per_call
        (calls : list call) (net : Network) (st : State instance) :
  exists issued,
    wire (perform_all calls net st) = (wire st ++ issued)%list
    /\ length issued = length calls.
Proof.
  exists (map (request_of (self st)) calls).
  split; [apply perform_all_wire | apply List.length_map].
Qed.

(** X5. What the client sends does not depend on what the server
    answers: the same calls put the same requests on the wire under any
    two networks. *)
Theorem requests_ignore_responses
        (calls : list call) (net net' : Network) (st : State instance) :
  wire (perform_all calls net st) = wire (perform_all calls net' st).
Proof.
  now rewrite !perform_all_wire.
Qed.

(** X6. The URL of a request is the stored base URL followed by the
    fixed path, joined as they are; the POST has no query parameters,
    and the GET has no body and no header besides [Authorization]. *)
Theorem request_targets
        (net : Network) (st : State instance) :
  (forall memories,
      exists request,
        wire (snd (add_memories memories net st)) = (wire st ++ [request])%list
        /\ url request = base_url (self st) ++ "/api/v1/mesh/memories"
        /\ params request = [])
  /\ (forall query limit filters,
         exists request,
           wire (snd (query_memories query limit filters net st))
           = (wire st ++ [request])%list
           /\ url request = base_url (self st) ++ "/api/v1/mesh/memories/query"
           /\ body request = None
           /\ map fst (headers request) = ["Authorization"]).
Proof.
  split; intros.
  - rewrite add_memories_run.
    exists (add_memories_request (self st) memories). repeat split.
  - rewrite query_memories_run.
    exists (query_memories_request (self st) query limit filters). repeat split.
Qed.

(** X7. The value a call returns is read off the response alone:
    [query_memories] does not filter, rank or cut the hits by [query],
    [limit] or [filters], and [add_memories] does not compare the stored
    identifiers with the records it sent. *)
Theorem result_ignores_arguments
        (net : Network) (st : State instance) (response : Response) :
  (forall r, net (wire st) r = Some response) ->
  (forall query limit filters query' limit' filters',
      fst (query_memories query limit filters net st)
      = fst (query_memories query' limit' filters' net st))
  /\ (forall memories memories',
         fst (add_memories memories net st) = fst (add_memories memories' net st)).
Proof.
  intros Hnet. split; intros.
  - rewrite !query_memories_run. cbn [fst]. now rewrite !Hnet.
  - rewrite !add_memories_run. cbn [fst]. now rewrite !Hnet.
Qed.

Lemma result_ignores_arguments_witness :
  fst (query_memories "foo" 1 None
         (ok ("{" ++ quoted "hits" ++ ": [1, 2, 3]}")) (fresh (__init__ "key" None)))
  = fst (query_memories "bar" default_limit (Some [("type", PStr "note")])
           (ok ("{" ++ quoted "hits" ++ ": [1, 2, 3]}")) (fresh (__init__ "key" None))).
Proof.
  apply (proj1 (result_ignores_arguments
                  (ok ("{" ++ quoted "hits" ++ ": [1, 2, 3]}"))
                  (fresh (__init__ "key" None))
                  {| status_code := 200; text := "{" ++ quoted "hits" ++ ": [1, 2, 3]}" |}
                  (fun _ => eq_refl))).
Defined.

(** ** The client over its lifetime *)

(** X8. The stored base URL is never empty, at construction and after
    any calls; so a client built again from the fields of a client is
    that client. *)
Theorem base_url_never_empty
        (key : string) (url : option string) (calls : list call) (net : Network)
        (sent_before : list Request) :
  base_url (__init__ key url) <> EmptyString
  /\ base_url (self (perform_all calls net
                       {| self := __init__ key url; wire := sent_before |}))
     <> EmptyString
  /\ __init__ (api_key (__init__ key url)) (Some (base_url (__init__ key url)))
     = __init__ key url.
Proof.
  rewrite perform_all_self. cbn [self].
  destruct url as [[|c s]|]; repeat split; discriminate.
Qed.

(** X9. Against a server that answers by the request alone, what a call
    returns or raises does not depend on the calls made before it,
    failed ones included. *)
Theorem earlier_calls_do_not_matter
        (net : Network) (st : State instance) (earlier : list call) :
  history_independent net ->
  (forall memories,
      fst (add_memories memories net (perform_all earlier net st))
      = fst (add_memories memories net st))
  /\ (forall query limit filters,
         fst (query_memories query limit filters net (perform_all earlier net st))
         = fst (query_memories query limit filters net st)).
Proof.
  intros Hnet. split; intros.
  - rewrite !add_memories_run. cbn [fst]. rewrite perform_all_self.
    now rewrite (Hnet (wire (perform_all earlier net st)) (wire st)).
  - rewrite !query_memories_run. cbn [fst]. rewrite perform_all_self.
    now rewrite (Hnet (wire (perform_all earlier net st)) (wire st)).
Qed.

Lemma earlier_calls_do_not_matter_witness :
  fst (add_memories []
         (ok ("{" ++ quoted "hits" ++ ": 7}"))
         (perform_all [QueryMemories "foo" default_limit None; AddMemories []]
                      (ok ("{" ++ quoted "hits" ++ ": 7}"))
                      (fresh (__init__ "key" None))))
  = fst (add_memories [] (ok ("{" ++ quoted "hits" ++ ": 7}"))
           (fresh (__init__ "key" None))).
Proof.
  apply (proj1 (earlier_calls_do_not_matter
                  (ok ("{" ++ quoted "hits" ++ ": 7}")) (fresh (__init__ "key" None))
                  [QueryMemories "foo" default_limit None; AddMemories []]
                  (fun _ _ _ => eq_refl))).
Defined.

(** ** The text [json.dumps] writes *)

Lemma ascii_only_append (a b : string) :
  ascii_only (a ++ b) = ascii_only a && ascii_only b.
Proof.
  induction a as [|c a IH]; simpl; [reflexivity|].
  now rewrite IH, andb_assoc.
Qed.

Lemma escape_char_ascii (c : ascii) : ascii_only (escape_char c) = true.
Proof.
  destruct c as [[] [] [] [] [] [] [] []]; reflexivity.
Qed.

Lemma escape_ascii (s : string) : ascii_only (escape s) = true.
Proof.
  induction s as [|c s IH]; simpl; [reflexivity|].
  now rewrite ascii_only_append, escape_char_ascii, IH.
Qed.

Lemma encode_basestring_ascii_only (s : string) :
  ascii_only (encode_basestring_ascii s) = true.
Proof.
  unfold encode_basestring_ascii. cbn [ascii_only].
  now rewrite ascii_only_append, escape_ascii.
Qed.

Lemma string_of_uint_ascii (d : uint) : ascii_only (NilEmpty.string_of_uint d) = true.
Proof.
  induction d; simpl; auto.
Qed.

Lemma int_repr_ascii (z : Z) : ascii_only (int_repr z) = true.
Proof.
  destruct z as [|p|p].
  - reflexivity.
  - rewrite int_repr_pos. apply string_of_uint_ascii.
  - rewrite int_repr_neg. cbn [ascii_only]. now rewrite string_of_uint_ascii.
Qed.

Lemma concat_ascii (l : list string) :
  Forall (fun e => ascii_only e = true) l -> ascii_only (String.concat ", " l) = true.
Proof.
  induction 1 as [|e l He Hl IH]; [reflexivity|].
  destruct l as [|e' l]; [exact He|].
  change (String.concat ", " (e :: e' :: l)) with (e ++ ", " ++ String.concat ", " (e' :: l)).
  now rewrite !ascii_only_append, He, IH.
Qed.

Lemma encode_ascii (v : pyval) : ascii_only (encode v) = true.
Proof.
  induction v as [|b|z|s|items IH|entries IH] using pyval_ind.
  - reflexivity.
  - destruct b; reflexivity.
  - apply int_repr_ascii.
  - apply encode_basestring_ascii_only.
  - cbn [encode]. rewrite !ascii_only_append, concat_ascii; [reflexivity|].
    apply Forall_forall. intros e He. apply in_map_iff in He.
    destruct He as (x & <- & Hx). rewrite Forall_forall in IH. now apply IH.
  - cbn [encode]. rewrite !ascii_only_append, concat_ascii; [reflexivity|].
    apply Forall_forall. intros e He. apply in_map_iff in He.
    destruct He as (kv & <- & Hkv). rewrite Forall_forall in IH.
    now rewrite !ascii_only_append, encode_basestring_ascii_only, (IH kv Hkv).
Qed.

Lemma query_params_filters (query : string) (limit : Z) (filters : option pydict) :
  dict_lookup (query_params query limit filters) "filters"
  = match filters with
    | Some (entry :: entries) => Some (PStr (Json.dumps (PDict (entry :: entries))))
    | _ => None
    end.
Proof.
  destruct filters as [[|entry entries]|]; reflexivity.
Qed.

(** X10. Whatever the records and filters hold, the JSON text the
    client sends is printable ASCII: the body of the POST and the
    [filters] parameter of the GET carry no control character and no
    character beyond the tilde. *)
Theorem wire_text_is_ascii (net : Network) (st : State instance) :
  (forall memories,
      exists request wire_text,
        wire (snd (add_memories memories net st)) = (wire st ++ [request])%list
        /\ body request = Some wire_text
        /\ ascii_only wire_text = true)
  /\ (forall query limit filters,
         exists request,
           wire (snd (query_memories query limit filters net st))
           = (wire st ++ [request])%list
           /\ forall value,
               dict_lookup (params request) "filters" = Some (PStr value) ->
               ascii_only value = true).
Proof.
  split; intros.
  - rewrite add_memories_run.
    exists (add_memories_request (self st) memories).
    exists (Json.dumps (PDict [("memories", PList (map PDict memories))])).
    repeat split. apply encode_ascii.
  - rewrite query_memories_run.
    exists (query_memories_request (self st) query limit filters).
    split; [reflexivity|].
    cbn [params query_memories_request]. rewrite query_params_filters.
    destruct filters as [[|entry entries]|]; intros value H; try discriminate H.
    injection H as <-. exact (encode_ascii (PDict (entry :: entries))).
Qed.

Lemma wire_text_is_ascii_witness :
  exists request,
    wire (snd (query_memories "foo" default_limit
                 (Some [("tag", PStr (String "233" (String "010" EmptyString)))])
                 (ok "{}") (fresh (__init__ "key" None))))
    = [request]
    /\ dict_lookup (params request) "filters"
       = Some (PStr ("{" ++ quoted "tag" ++ ": " ++ quoted "\u00e9\n" ++ "}"))
    /\ ascii_only ("{" ++ quoted "tag" ++ ": " ++ quoted "\u00e9\n" ++ "}") = true.
Proof.
  destruct (proj2 (wire_text_is_ascii (ok "{}") (fresh (__init__ "key" None)))
              "foo" default_limit
              (Some [("tag", PStr (String "233" (String "010" EmptyString)))]))
    as (request & Hwire & Hascii).
  exists request. split; [exact Hwire|].
  assert (dict_lookup (params request) "filters"
          = Some (PStr ("{" ++ quoted "tag" ++ ": " ++ quoted "\u00e9\n" ++ "}")))
    as Hvalue.
  { rewrite query_memories_run in Hwire. injection Hwire as <-. reflexivity. }
  split; [exact Hvalue | exact (Hascii _ Hvalue)].
Defined.

(** ** When [HTTPError] is raised *)

Lemma extract_http_error (field : string) (response failed : Response) :
  extract field (Some response) = Raise (HTTPError failed) ->
  is_error_status (status_code response) = true.
Proof.
  unfold extract. destruct (is_error_status (status_code response)); [reflexivity|].
  destruct (Json.loads (text response)) as [[| | | | | |]|]; discriminate.
Qed.

Lemma error_status_range (status : Z) :
  is_error_status status = true <-> 400 <= status < 600.
Proof.
  unfold is_error_status. rewrite andb_true_iff, Z.leb_le, Z.ltb_lt. tauto.
Qed.

(** X11. A call raises [HTTPError] exactly when the status of the
    response lies from 400 to 599: no other status, 1xx, 3xx and 600
    upwards included, is turned into an [HTTPError], whatever the
    body. *)
Theorem http_error_exactly_on_error_status
        (net : Network) (st : State instance) (response : Response) :
  (forall r, net (wire st) r = Some response) ->
  (forall memories,
      (exists failed, fst (add_memories memories net st) = Raise (HTTPError failed))
      <-> 400 <= status_code response < 600)
  /\ (forall query limit filters,
         (exists failed,
             fst (query_memories query limit filters net st) = Raise (HTTPError failed))
         <-> 400 <= status_code response < 600).
Proof.
  intros Hnet.
  assert (forall field,
             (exists failed, extract field (Some response) = Raise (HTTPError failed))
             <-> 400 <= status_code response < 600) as Hextract.
  { intros field. rewrite <- error_status_range. split.
    - intros (failed & H). exact (extract_http_error _ _ _ H).
    - intros H. exists response. unfold extract. now rewrite H. }
  split; intros.
  - rewrite add_memories_run. cbn [fst]. rewrite Hnet. apply Hextract.
  - rewrite query_memories_run. cbn [fst]. rewrite Hnet. apply Hextract.
Qed.

Lemma http_error_exactly_on_error_status_witness :
  exists failed,
    fst (query_memories "foo" default_limit None
           (always {| status_code := 599; text := "{}" |})
           (fresh (__init__ "key" None)))
    = Raise (HTTPError failed).
Proof.
  apply (proj2 (http_error_exactly_on_error_status
                  (always {| status_code := 599; text := "{}" |})
                  (fresh (__init__ "key" None))
                  {| status_code := 599; text := "{}" |}
                  (fun _ => eq_refl))
               "foo" default_limit None).
  simpl. lia.
Defined.
